(** * Crosswalk extension service: name validation and registration

    A shallow embedding of [xwalk/extensions/browser/xwalk_extension_service.cc]:
    the extension-name validator, the extension registry held by
    [XWalkExtensionService], and the handlers for render-process and runtime
    events, together with the properties the design document states for
    them. *)

From Stdlib Require Import String Ascii List NArith ZArith Bool Lia.
Import ListNotations.

Local Open Scope string_scope.

(** ** Characters

    [std::string] is a sequence of 8-bit [char]s; [IsAsciiDigit] and
    [IsAsciiAlpha] are the range tests of Chromium's [base/string_util.h]. *)

Definition char_in_range (lo hi c : ascii) : bool :=
  (N_of_ascii lo <=? N_of_ascii c)%N && (N_of_ascii c <=? N_of_ascii hi)%N.

Definition IsAsciiDigit (c : ascii) : bool := char_in_range "0" "9" c.

Definition IsAsciiAlpha (c : ascii) : bool :=
  char_in_range "A" "Z" c || char_in_range "a" "z" c.

(** ** ValidateExtensionName

    The [for] loop of the source, with its two flags as accumulators; every
    [return false] inside the loop ends the scan. *)

Fixpoint validate_from (dot_allowed digit_or_underscore_allowed : bool)
    (rest : string) : bool :=
  match rest with
  | EmptyString => dot_allowed
  | String c rest' =>
      if IsAsciiDigit c then
        if negb digit_or_underscore_allowed then false
        else validate_from dot_allowed digit_or_underscore_allowed rest'
      else if Ascii.eqb c "_" then
        if negb digit_or_underscore_allowed then false
        else validate_from dot_allowed digit_or_underscore_allowed rest'
      else if Ascii.eqb c "." then
        if negb dot_allowed then false
        else validate_from false false rest'
      else if IsAsciiAlpha c then
        validate_from true true rest'
      else false
  end.

Definition ValidateExtensionName (extension_name : string) : bool :=
  validate_from false false extension_name.

Definition ValidateExtensionNameForTesting (extension_name : string) : bool :=
  ValidateExtensionName extension_name.

(** ** The dotted-segment grammar, as the design document words it

    A name is a non-empty sequence of segments separated by single dots; a
    segment is an ASCII letter followed by any number of ASCII letters, ASCII
    digits and underscores. *)

Definition segment_char (c : ascii) : Prop :=
  IsAsciiAlpha c = true \/ IsAsciiDigit c = true \/ c = "_"%char.

Inductive SegmentTail : string -> Prop :=
| tail_done : SegmentTail ""
| tail_more c s : segment_char c -> SegmentTail s -> SegmentTail (String c s).

Inductive Segment : string -> Prop :=
| segment_intro c s :
    IsAsciiAlpha c = true -> SegmentTail s -> Segment (String c s).

Inductive DottedName : string -> Prop :=
| name_last seg : Segment seg -> DottedName seg
| name_dot seg more :
    Segment seg -> DottedName more -> DottedName (seg ++ "." ++ more).

(** The same grammar as a list of segments joined by dots. *)
Definition matches_grammar (extension_name : string) : Prop :=
  exists segments,
    segments <> [] /\ Forall Segment segments /\
    extension_name = String.concat "." segments.

(** What may follow once a letter of the current segment has been read. *)
Inductive AfterLetter : string -> Prop :=
| after_end : AfterLetter ""
| after_char c s : segment_char c -> AfterLetter s -> AfterLetter (String c s)
| after_dot s : DottedName s -> AfterLetter (String "." s).

(** ** Collaborators of the service

    Handles stand for the non-null pointers the content layer passes in; a
    [NULL] field is [None]. *)

Definition RenderProcessHost := N.
Definition WebContents := N.

Record Runtime := { web_contents : WebContents }.
Definition RuntimeList := list Runtime.

(** An extension object: its address (the registry stores pointers), and the
    results of its [name()] and [GetJavaScriptAPI()] methods. *)
Record XWalkExtension := {
  address : N;
  name : string;
  GetJavaScriptAPI : string
}.

(** The per-WebContents handler, found by [FromWebContents]. *)
Record XWalkExtensionWebContentsHandler := FromWebContents {
  handler_web_contents : WebContents
}.

Record XWalkExtensionThreadedRunner := {
  runner_extension : XWalkExtension;
  runner_handler : XWalkExtensionWebContentsHandler
}.

Inductive Message :=
| XWalkViewMsg_RegisterExtension (extension_name api : string).

(** What the service does to the world outside it, in program order. *)
Inductive Effect :=
| LogWarning (text : string)
| Send (host : RenderProcessHost) (msg : Message)
| CreateForWebContents (contents : WebContents)
| set_extension_service (handler : XWalkExtensionWebContentsHandler)
| AttachExtensionRunner (handler : XWalkExtensionWebContentsHandler)
    (frame_id : Z) (runner : XWalkExtensionThreadedRunner).

(** ** The registry container *)

Module ExtensionMap.

(** Modelled from the spec: the [ExtensionMap] typedef of
    [xwalk_extension_service.h], which is not among the sources.  The design
    document describes the registry as a mapping from name to extension,
    insertion-ordered for deterministic announcement order, enumerated in
    registration order. *)
Definition t := list (string * XWalkExtension).

Definition empty : t := [].

(** [m.find(key)]: the entry stored under [key], [None] for [m.end()]. *)
Fixpoint find (key : string) (m : t) : option XWalkExtension :=
  match m with
  | [] => None
  | (k, v) :: rest => if String.eqb k key then Some v else find key rest
  end.

(** Modelled from the spec: [m[key] = value]; a present key keeps its place
    and takes the new value, a new key is inserted preserving registration
    order, that is after every earlier entry. *)
Fixpoint assign (key : string) (value : XWalkExtension) (m : t) : t :=
  match m with
  | [] => [(key, value)]
  | (k, v) :: rest =>
      if String.eqb k key then (k, value) :: rest
      else (k, v) :: assign key value rest
  end.

(** Modelled from the spec: the entries from [m.begin()] to [m.end()], in
    registration order. *)
Definition entries (m : t) : list (string * XWalkExtension) := m.

End ExtensionMap.

(** ** Service state and actions *)

Record XWalkExtensionService := {
  extensions_ : ExtensionMap.t;
  render_process_host_ : option RenderProcessHost
}.

(** The state the constructor leaves: no render process host, no extension. *)
Definition XWalkExtensionService_new : XWalkExtensionService :=
  {| extensions_ := ExtensionMap.empty; render_process_host_ := None |}.

(** A member function either returns, with the new state and the effects it
    had, or dies on a failed [CHECK] after the effects it had until then. *)
Inductive Outcome (A : Type) :=
| Return (a : A) (s : XWalkExtensionService) (effects : list Effect)
| Abort (effects : list Effect).
Arguments Return {A} a s effects.
Arguments Abort {A} effects.

Definition Action (A : Type) := XWalkExtensionService -> Outcome A.

Definition ret {A} (a : A) : Action A := fun s => Return a s [].

Definition bind {A B} (m : Action A) (k : A -> Action B) : Action B :=
  fun s =>
    match m s with
    | Return a s1 e1 =>
        match k a s1 with
        | Return b s2 e2 => Return b s2 (e1 ++ e2)
        | Abort e2 => Abort (e1 ++ e2)
        end
    | Abort e1 => Abort e1
    end.

Notation "x <- m ;; k" := (bind m (fun x => k))
  (at level 61, m at next level, right associativity).
Notation "m ;; k" := (bind m (fun _ => k))
  (at level 61, right associativity).

Definition gets {A} (field : XWalkExtensionService -> A) : Action A :=
  fun s => Return (field s) s [].

Definition set_extensions_ (m : ExtensionMap.t) : Action unit :=
  fun s =>
    Return tt {| extensions_ := m;
                 render_process_host_ := render_process_host_ s |} [].

Definition set_render_process_host_ (host : option RenderProcessHost)
  : Action unit :=
  fun s =>
    Return tt {| extensions_ := extensions_ s;
                 render_process_host_ := host |} [].

Definition emit (e : Effect) : Action unit := fun s => Return tt s [e].

(** [CHECK(condition)] of [base/logging.h]: fatal when the condition fails. *)
Definition CHECK (condition : bool) : Action unit :=
  fun s => if condition then Return tt s [] else Abort [].

Fixpoint for_each {A} (body : A -> Action unit) (l : list A) : Action unit :=
  match l with
  | [] => ret tt
  | x :: rest => body x ;; for_each body rest
  end.

Definition is_null {A} (p : option A) : bool :=
  match p with None => true | Some _ => false end.

(** ** Member functions of XWalkExtensionService *)

Definition RegisterExtension (extension : XWalkExtension) : Action bool :=
  host <- gets render_process_host_ ;;
  CHECK (is_null host) ;;
  extensions <- gets extensions_ ;;
  match ExtensionMap.find (name extension) extensions with
  | Some _ => ret false
  | None =>
      if negb (ValidateExtensionName (name extension)) then
        emit (LogWarning
                ("Ignoring extension with invalid name: " ++ name extension)) ;;
        ret false
      else
        set_extensions_
          (ExtensionMap.assign (name extension) extension extensions) ;;
        ret true
  end.

Definition RegisterExtensionsForNewHost (host : RenderProcessHost)
  : Action unit :=
  extensions <- gets extensions_ ;;
  for_each
    (fun it =>
       let extension := snd it in
       emit (Send host (XWalkViewMsg_RegisterExtension
                          (name extension) (GetJavaScriptAPI extension))))
    (ExtensionMap.entries extensions).

Definition CreateWebContentsHandler (contents : WebContents) : Action unit :=
  emit (CreateForWebContents contents) ;;
  emit (set_extension_service (FromWebContents contents)).

(** [runtimes] is what [RuntimeRegistry::Get()->runtimes()] holds when the
    event arrives. *)
Definition OnRenderProcessHostCreated (runtimes : RuntimeList)
    (host : RenderProcessHost) : Action unit :=
  current <- gets render_process_host_ ;;
  if negb (is_null current) then ret tt
  else
    set_render_process_host_ (Some host) ;;
    RegisterExtensionsForNewHost host ;;
    for_each (fun runtime => CreateWebContentsHandler (web_contents runtime))
      runtimes.

Definition GetExtensionForName (key : string)
  : Action (option XWalkExtension) :=
  extensions <- gets extensions_ ;;
  ret (ExtensionMap.find key extensions).

Definition CreateRunnersForHandler
    (handler : XWalkExtensionWebContentsHandler) (frame_id : Z)
  : Action unit :=
  extensions <- gets extensions_ ;;
  for_each
    (fun it =>
       let runner := {| runner_extension := snd it;
                        runner_handler := handler |} in
       emit (AttachExtensionRunner handler frame_id runner))
    (ExtensionMap.entries extensions).

Definition OnRuntimeAdded (runtime : Runtime) : Action unit :=
  current <- gets render_process_host_ ;;
  if negb (is_null current) then
    CreateWebContentsHandler (web_contents runtime)
  else ret tt.

(** ** Histories of calls *)

Inductive Call :=
| CallRegisterExtension (extension : XWalkExtension)
| CallOnRenderProcessHostCreated (runtimes : RuntimeList)
    (host : RenderProcessHost)
| CallGetExtensionForName (key : string)
| CallCreateRunnersForHandler (handler : XWalkExtensionWebContentsHandler)
    (frame_id : Z)
| CallOnRuntimeAdded (runtime : Runtime).

Inductive Reply :=
| Done
| Registered (ok : bool)
| Found (extension : option XWalkExtension).

Definition perform (c : Call) : Action Reply :=
  match c with
  | CallRegisterExtension extension =>
      ok <- RegisterExtension extension ;; ret (Registered ok)
  | CallOnRenderProcessHostCreated runtimes host =>
      OnRenderProcessHostCreated runtimes host ;; ret Done
  | CallGetExtensionForName key =>
      found <- GetExtensionForName key ;; ret (Found found)
  | CallCreateRunnersForHandler handler frame_id =>
      CreateRunnersForHandler handler frame_id ;; ret Done
  | CallOnRuntimeAdded runtime =>
      OnRuntimeAdded runtime ;; ret Done
  end.

(** A sequence of calls on the service, none of which aborts. *)
Fixpoint run (calls : list Call) : Action (list Reply) :=
  match calls with
  | [] => ret []
  | c :: rest => r <- perform c ;; rs <- run rest ;; ret (r :: rs)
  end.

(** The extensions whose registration returned [true], in call order. *)
Fixpoint registered (calls : list Call) (replies : list Reply)
  : list XWalkExtension :=
  match calls, replies with
  | CallRegisterExtension extension :: calls', Registered true :: replies' =>
      extension :: registered calls' replies'
  | _ :: calls', _ :: replies' => registered calls' replies'
  | _, _ => []
  end.

(** The extension a single call adds to the registry, if any. *)
Definition added (c : Call) (r : Reply) : list XWalkExtension :=
  match c, r with
  | CallRegisterExtension extension, Registered true => [extension]
  | _, _ => []
  end.

(** What the design document asks of the registry's contents: names are
    unique and every name passes the validator. *)
Definition registry_ok (l : list XWalkExtension) : Prop :=
  NoDup (map name l) /\
  Forall (fun extension => ValidateExtensionName (name extension) = true) l.

(** The map entry a registered extension occupies. *)
Definition entry_of (extension : XWalkExtension) : string * XWalkExtension :=
  (name extension, extension).

(** The announcement sent to [host] for one extension. *)
Definition announcement (host : RenderProcessHost) (extension : XWalkExtension)
  : Effect :=
  Send host (XWalkViewMsg_RegisterExtension
               (name extension) (GetJavaScriptAPI extension)).

(** The two effects of attaching a handler to one runtime's WebContents. *)
Definition attachment (runtime : Runtime) : list Effect :=
  [CreateForWebContents (web_contents runtime);
   set_extension_service (FromWebContents (web_contents runtime))].

Definition is_announcement (e : Effect) : bool :=
  match e with Send _ _ => true | _ => false end.

Definition is_attachment (e : Effect) : bool :=
  match e with
  | CreateForWebContents _ | set_extension_service _ => true
  | _ => false
  end.

(** The runner attached to [handler] for one extension in frame [frame_id]. *)
Definition runner_attachment (handler : XWalkExtensionWebContentsHandler)
    (frame_id : Z) (extension : XWalkExtension) : Effect :=
  AttachExtensionRunner handler frame_id
    {| runner_extension := extension; runner_handler := handler |}.

(** The extensions the registry enumerates from [begin()] to [end()]. *)
Definition enumerate (s : XWalkExtensionService) : list XWalkExtension :=
  map snd (ExtensionMap.entries (extensions_ s)).

(** The (name, API) pairs announced by a run of effects, in order. *)
Fixpoint announced (effects : list Effect) : list (string * string) :=
  match effects with
  | [] => []
  | Send _ (XWalkViewMsg_RegisterExtension n api) :: rest =>
      (n, api) :: announced rest
  | _ :: rest => announced rest
  end.

(** The extensions for which a run of effects attached a runner, in order. *)
Fixpoint runners (effects : list Effect) : list XWalkExtension :=
  match effects with
  | [] => []
  | AttachExtensionRunner _ _ runner :: rest =>
      runner_extension runner :: runners rest
  | _ :: rest => runners rest
  end.

(** How many entries of the registry are stored under [key]. *)
Definition entries_named (key : string) (s : XWalkExtensionService) : nat :=
  length (filter (fun it => String.eqb (fst it) key)
                 (ExtensionMap.entries (extensions_ s))).

(** ** Sample objects *)

Definition echo_extension : XWalkExtension :=
  {| address := 1; name := "echo"; GetJavaScriptAPI := "exports.echo = 1;" |}.

Definition echo_twin : XWalkExtension :=
  {| address := 2; name := "echo"; GetJavaScriptAPI := "exports.twin = 2;" |}.

Definition clock_extension : XWalkExtension :=
  {| address := 3; name := "com.example.clock";
     GetJavaScriptAPI := "exports.now = 0;" |}.

Definition misnamed_extension : XWalkExtension :=
  {| address := 4; name := "1com"; GetJavaScriptAPI := "" |}.

Definition misnamed_twin : XWalkExtension :=
  {| address := 5; name := "1com"; GetJavaScriptAPI := "exports.twin = 5;" |}.

Definition main_runtime : Runtime := {| web_contents := 7%N |}.
Definition popup_runtime : Runtime := {| web_contents := 8%N |}.

(** A service that has seen render process host 5 with nothing registered. *)
Definition attached_service : XWalkExtensionService :=
  {| extensions_ := ExtensionMap.empty; render_process_host_ := Some 5%N |}.

(** Two registrations, a rejected one, and a runtime, before any host. *)
Definition sample_calls : list Call :=
  [CallRegisterExtension echo_extension;
   CallRegisterExtension misnamed_extension;
   CallRegisterExtension clock_extension;
   CallRegisterExtension echo_twin;
   CallOnRuntimeAdded main_runtime].

Definition sample_replies : list Reply :=
  [Registered true; Registered false; Registered true; Registered false; Done].

Definition sample_service : XWalkExtensionService :=
  {| extensions_ := [entry_of echo_extension; entry_of clock_extension];
     render_process_host_ := None |}.

Definition sample_effects : list Effect :=
  [LogWarning "Ignoring extension with invalid name: 1com"].

(** The sample history followed by a first host, a second host and a late
    runtime. *)
Definition hosted_calls : list Call :=
  (sample_calls ++
   [CallOnRenderProcessHostCreated [main_runtime] 5%N;
    CallOnRenderProcessHostCreated [main_runtime] 6%N;
    CallOnRuntimeAdded popup_runtime])%list.

Definition hosted_replies : list Reply :=
  (sample_replies ++ [Done; Done; Done])%list.

Definition hosted_service : XWalkExtensionService :=
  {| extensions_ := [entry_of echo_extension; entry_of clock_extension];
     render_process_host_ := Some 5%N |}.

Definition hosted_effects : list Effect :=
  (sample_effects ++
   [announcement 5%N echo_extension; announcement 5%N clock_extension] ++
   attachment main_runtime ++ attachment popup_runtime)%list.

(** ** Destruction of the service

    The destructor unregisters the service from the runtime registry and
    then deletes every extension the registry holds. *)

Inductive Teardown :=
| RemoveObserver
| delete_extension (extension : XWalkExtension).

Definition XWalkExtensionService_destroy (s : XWalkExtensionService)
  : list Teardown :=
  RemoveObserver ::
  map (fun it => delete_extension (snd it))
      (ExtensionMap.entries (extensions_ s)).

(** ** The component updater's configurator

    [xwalk_component_updater_configurator.cc].  [switch_values] are the
    comma-separated tokens of the [--component-updater] switch, as [Tokenize]
    leaves them; the [test] arguments are C strings. *)

Module component_updater.

Definition kUpdaterAltUrl : string :=
  "http://clients2.google.com/service/update2".
Definition kUpdaterDefaultUrl : string :=
  "https://clients2.google.com/service/update2".

Definition kDelayOneMinute : Z := 60.
Definition kDelayOneHour : Z := kDelayOneMinute * 60.

Definition kSwitchFastUpdate : string := "fast-update".
Definition kSwitchRequestParam : string := "test-request".
Definition kSwitchDisablePings : string := "disable-pings".
Definition kSwitchUrlSource : string := "url-source".
Definition kSwitchDisableDeltaUpdates : string := "disable-delta-updates".
Definition kSwitchDisableBackgroundDownloads : string :=
  "disable-background-downloads".

(** [std::find(vec.begin(), vec.end(), test)]: the index of the first element
    equal to [test], [None] for [vec.end()]. *)
Fixpoint std_find (vec : list string) (test : string) : option nat :=
  match vec with
  | [] => None
  | it :: rest =>
      if String.eqb it test then Some 0
      else option_map S (std_find rest test)
  end.

Definition HasSwitchValue (vec : list string) (test : string) : bool :=
  match vec with
  | [] => false
  | _ => negb (is_null (std_find vec test))
  end.

(** [s.find(c)] for a one-character pattern: the first position of [c],
    [None] for [npos]. *)
Fixpoint string_find (c : ascii) (s : string) : option nat :=
  match s with
  | EmptyString => None
  | String d rest =>
      if Ascii.eqb d c then Some 0 else option_map S (string_find c rest)
  end.

(** [s.substr(pos)] for [pos <= s.size()]: the rest of [s] from [pos]. *)
Fixpoint substr_from (pos : nat) (s : string) : string :=
  match pos, s with
  | 0, _ => s
  | S pos', String _ rest => substr_from pos' rest
  | S _, EmptyString => EmptyString
  end.

(** The [for] loop of [GetSwitchArgument]; [s.substr(0, found)] is
    [substring 0 found s]. *)
Fixpoint GetSwitchArgument_from (vec : list string) (test : string) : string :=
  match vec with
  | [] => EmptyString
  | it :: rest =>
      match string_find "=" it with
      | Some found =>
          if String.eqb (substring 0 found it) test
          then substr_from (found + 1) it
          else GetSwitchArgument_from rest test
      | None => GetSwitchArgument_from rest test
      end
  end.

Definition GetSwitchArgument (vec : list string) (test : string) : string :=
  match vec with
  | [] => EmptyString
  | _ => GetSwitchArgument_from vec test
  end.

(** What the build and the platform fix: the [OS_WIN] macro, the answer of
    [base::win::MaybeHasSHA256Support()], and whether [DCHECK] is compiled
    in. *)
Record Build := {
  OS_WIN : bool;
  MaybeHasSHA256Support : bool;
  DCHECK_IS_ON : bool
}.

Definition CanUseAltUrlSource (build : Build) : bool :=
  if OS_WIN build then negb (MaybeHasSHA256Support build) else false.

(** A [GURL]: its spec and whether parsing found it valid.  Parsing itself,
    [GURL(const std::string&)], belongs to the url library and is taken as
    the parameter [parse] below. *)
Record GURL := { spec : string; is_valid : bool }.

(** The default-constructed [GURL()]: empty and invalid. *)
Definition GURL_empty : GURL := {| spec := ""; is_valid := false |}.

Record XwalkConfigurator := {
  url_request_getter_ : N;
  extra_info_ : string;
  url_source_override_ : GURL;
  fast_update_ : bool;
  pings_enabled_ : bool;
  deltas_enabled_ : bool;
  background_downloads_enabled_ : bool;
  fallback_to_alt_source_url_enabled_ : bool
}.

Definition string_empty (s : string) : bool :=
  match s with EmptyString => true | String _ _ => false end.

(** The text [testrequest="1"], with its two double quotes. *)
Definition kTestRequest : string :=
  "testrequest=" ++ String "034" ("1" ++ String "034" "").

(** The constructor; [None] when the [DCHECK] on the override URL fails in a
    build that compiles it in. *)
Definition XwalkConfigurator_new (build : Build) (parse : string -> GURL)
    (url_request_getter : N) (switch_values : list string)
  : option XwalkConfigurator :=
  let fast_update := HasSwitchValue switch_values kSwitchFastUpdate in
  let pings_enabled :=
    negb (HasSwitchValue switch_values kSwitchDisablePings) in
  let deltas_enabled :=
    negb (HasSwitchValue switch_values kSwitchDisableDeltaUpdates) in
  let background_downloads_enabled :=
    if OS_WIN build
    then negb (HasSwitchValue switch_values kSwitchDisableBackgroundDownloads)
    else false in
  let switch_url_source := GetSwitchArgument switch_values kSwitchUrlSource in
  let url_source_override :=
    if negb (string_empty switch_url_source) then parse switch_url_source
    else GURL_empty in
  if negb (string_empty switch_url_source) && DCHECK_IS_ON build
     && negb (is_valid url_source_override)
  then None
  else
    let extra_info :=
      if HasSwitchValue switch_values kSwitchRequestParam
      then ("" ++ kTestRequest)%string else "" in
    Some {| url_request_getter_ := url_request_getter;
            extra_info_ := extra_info;
            url_source_override_ := url_source_override;
            fast_update_ := fast_update;
            pings_enabled_ := pings_enabled;
            deltas_enabled_ := deltas_enabled;
            background_downloads_enabled_ := background_downloads_enabled;
            fallback_to_alt_source_url_enabled_ :=
              CanUseAltUrlSource build |}.

Definition InitialDelay (c : XwalkConfigurator) : Z :=
  if fast_update_ c then 1 else 6 * kDelayOneMinute.
Definition NextCheckDelay (c : XwalkConfigurator) : Z :=
  if fast_update_ c then 3 else 6 * kDelayOneHour.
Definition StepDelayMedium (c : XwalkConfigurator) : Z :=
  if fast_update_ c then 3 else 15 * kDelayOneMinute.
Definition StepDelay (c : XwalkConfigurator) : Z :=
  if fast_update_ c then 1 else 1.
Definition MinimumReCheckWait (c : XwalkConfigurator) : Z :=
  if fast_update_ c then 30 else 6 * kDelayOneHour.
Definition OnDemandDelay (c : XwalkConfigurator) : Z :=
  if fast_update_ c then 2 else 30 * kDelayOneMinute.
Definition UpdateDelay (c : XwalkConfigurator) : Z :=
  if fast_update_ c then 1 else 15 * kDelayOneMinute.

Definition UpdateUrl (parse : string -> GURL) (c : XwalkConfigurator)
  : list GURL :=
  if is_valid (url_source_override_ c) then [url_source_override_ c]
  else
    ([parse kUpdaterDefaultUrl] ++
     (if fallback_to_alt_source_url_enabled_ c
      then [parse kUpdaterAltUrl] else []))%list.

Definition PingUrl (parse : string -> GURL) (c : XwalkConfigurator)
  : list GURL :=
  if pings_enabled_ c then UpdateUrl parse c else [].

Definition ExtraRequestParams (c : XwalkConfigurator) : string :=
  extra_info_ c.
Definition UrlSizeLimit (c : XwalkConfigurator) : N := 1024.
Definition DeltasEnabled (c : XwalkConfigurator) : bool := deltas_enabled_ c.
Definition UseBackgroundDownloader (c : XwalkConfigurator) : bool :=
  background_downloads_enabled_ c.

(** A parser for the samples: a URL is valid when it names a scheme. *)
Definition sample_parse (text : string) : GURL :=
  {| spec := text;
     is_valid := negb (is_null (string_find ":" text)) |}.

Definition release_linux : Build :=
  {| OS_WIN := false; MaybeHasSHA256Support := true; DCHECK_IS_ON := false |}.

Definition sample_switch_values : list string :=
  ["fast-update"; "nothing=here"; "url-source=https://example.org/u?a=b";
   "disable-pings"; "url-source=ignored"].

End component_updater.

(** Two configurators as the constructor builds them on a Linux release
    build, with and without "fast-update". *)
Definition fast_configurator : component_updater.XwalkConfigurator :=
  {| component_updater.url_request_getter_ := 0;
     component_updater.extra_info_ := "";
     component_updater.url_source_override_ := component_updater.GURL_empty;
     component_updater.fast_update_ := true;
     component_updater.pings_enabled_ := true;
     component_updater.deltas_enabled_ := true;
     component_updater.background_downloads_enabled_ := false;
     component_updater.fallback_to_alt_source_url_enabled_ := false |}.

Definition default_configurator : component_updater.XwalkConfigurator :=
  {| component_updater.url_request_getter_ := 0;
     component_updater.extra_info_ := "";
     component_updater.url_source_override_ := component_updater.GURL_empty;
     component_updater.fast_update_ := false;
     component_updater.pings_enabled_ := true;
     component_updater.deltas_enabled_ := true;
     component_updater.background_downloads_enabled_ := false;
     component_updater.fallback_to_alt_source_url_enabled_ := false |}.

(** ** The render message filter's plugin query

    [XWalkRenderMessageFilter::OnIsInternalPluginAvailableForMimeType] of
    [xwalk_render_message_filter.cc], as built with [ENABLE_PEPPER_CDMS]. *)

Module render_message_filter.

(** [base::string16]: UTF-16 code units. *)
Definition string16 := list N.

Record WebPluginMimeType := {
  mime_type : string;
  additional_param_names : list string16;
  additional_param_values : list string16
}.

Record WebPluginInfo := {
  path : string;
  mime_types : list WebPluginMimeType
}.

Inductive PluginAvailabilityStatusForUMA :=
| PLUGIN_NOT_REGISTERED
| PLUGIN_AVAILABLE
| PLUGIN_DISABLED.

(** A sample recorded in the "Plugin.AvailabilityStatus.WidevineCdm"
    histogram. *)
Inductive Histogram :=
| Plugin_AvailabilityStatus_WidevineCdm
    (status : PluginAvailabilityStatusForUMA).

(** [widevine_cdm_available] is the [WIDEVINE_CDM_AVAILABLE] macro;
    [kWidevineCdmPluginMimeType] comes from the Widevine headers. *)
Definition SendPluginAvailabilityUMA (widevine_cdm_available : bool)
    (kWidevineCdmPluginMimeType : string) (mime : string)
    (status : PluginAvailabilityStatusForUMA) : list Histogram :=
  if widevine_cdm_available then
    if negb (String.eqb mime kWidevineCdmPluginMimeType) then []
    else [Plugin_AvailabilityStatus_WidevineCdm status]
  else [].

(** The three out-parameters of the handler. *)
Record Answer := {
  is_available : bool;
  out_param_names : list string16;
  out_param_values : list string16
}.

(** How the inner loop over one plugin's MIME types ends: it returns from
    the handler with a match, it breaks on a disabled plugin, or it runs to
    its end. *)
Inductive InnerLoop :=
| ReturnsAvailable (found : WebPluginMimeType)
| BreaksDisabled
| RunsOut.

Fixpoint scan_mime_types (IsPluginEnabled : WebPluginInfo -> bool)
    (plugin : WebPluginInfo) (mime : string)
    (remaining : list WebPluginMimeType) : InnerLoop :=
  match remaining with
  | [] => RunsOut
  | entry :: rest =>
      if String.eqb (mime_type entry) mime then
        if negb (IsPluginEnabled plugin) then BreaksDisabled
        else ReturnsAvailable entry
      else scan_mime_types IsPluginEnabled plugin mime rest
  end.

(** The outer loop: the match it returns with, if any, and the final value
    of [is_plugin_disabled]. *)
Fixpoint scan_plugins (IsPluginEnabled : WebPluginInfo -> bool)
    (mime : string) (is_plugin_disabled : bool)
    (plugins : list WebPluginInfo) : option WebPluginMimeType * bool :=
  match plugins with
  | [] => (None, is_plugin_disabled)
  | plugin :: rest =>
      match scan_mime_types IsPluginEnabled plugin mime (mime_types plugin)
      with
      | ReturnsAvailable found => (Some found, is_plugin_disabled)
      | BreaksDisabled => scan_plugins IsPluginEnabled mime true rest
      | RunsOut => scan_plugins IsPluginEnabled mime is_plugin_disabled rest
      end
  end.

(** [plugins] is what [GetInternalPlugins] returns, [before] holds the
    caller's values of the out-parameters. *)
Definition OnIsInternalPluginAvailableForMimeType
    (IsPluginEnabled : WebPluginInfo -> bool)
    (widevine_cdm_available : bool) (kWidevineCdmPluginMimeType : string)
    (plugins : list WebPluginInfo) (mime : string) (before : Answer)
  : Answer * list Histogram :=
  match scan_plugins IsPluginEnabled mime false plugins with
  | (Some found, _) =>
      ({| is_available := true;
          out_param_names := additional_param_names found;
          out_param_values := additional_param_values found |},
       SendPluginAvailabilityUMA widevine_cdm_available
         kWidevineCdmPluginMimeType mime PLUGIN_AVAILABLE)
  | (None, is_plugin_disabled) =>
      ({| is_available := false;
          out_param_names := out_param_names before;
          out_param_values := out_param_values before |},
       SendPluginAvailabilityUMA widevine_cdm_available
         kWidevineCdmPluginMimeType mime
         (if is_plugin_disabled then PLUGIN_DISABLED
          else PLUGIN_NOT_REGISTERED))
  end.

(** Whether a plugin lists the MIME type. *)
Definition offers (mime : string) (plugin : WebPluginInfo) : Prop :=
  exists entry, In entry (mime_types plugin) /\ mime_type entry = mime.

Definition flash_entry : WebPluginMimeType :=
  {| mime_type := "application/x-shockwave-flash";
     additional_param_names := [[97%N]];
     additional_param_values := [[98%N]] |}.

Definition cdm_entry : WebPluginMimeType :=
  {| mime_type := "application/x-ppapi-widevine-cdm";
     additional_param_names := [];
     additional_param_values := [] |}.

Definition old_cdm_plugin : WebPluginInfo :=
  {| path := "old/libwidevinecdmadapter.so"; mime_types := [cdm_entry] |}.

Definition new_cdm_plugin : WebPluginInfo :=
  {| path := "new/libwidevinecdmadapter.so";
     mime_types := [flash_entry; cdm_entry] |}.

(** A plugin context that has disabled everything under "old/". *)
Definition sample_enabled (plugin : WebPluginInfo) : bool :=
  negb (String.prefix "old/" (path plugin)).

Definition empty_answer : Answer :=
  {| is_available := false; out_param_names := []; out_param_values := [] |}.

End render_message_filter.

(** ** Character classes are disjoint *)

Lemma digit_not_alpha c : IsAsciiDigit c = true -> IsAsciiAlpha c = false.
Proof.
  unfold IsAsciiDigit, IsAsciiAlpha, char_in_range. simpl N_of_ascii at 1 2 3 4 5 6.
  intros H. apply andb_true_iff in H as [H1 H2].
  apply N.leb_le in H1, H2.
  apply orb_false_iff; split; apply andb_false_iff.
  - left. apply N.leb_gt. cbn in *. lia.
  - left. apply N.leb_gt. cbn in *. lia.
Qed.

Lemma digit_not_dot c : IsAsciiDigit c = true -> c <> "."%char.
Proof. intros H ->. discriminate H. Qed.

Lemma alpha_not_dot c : IsAsciiAlpha c = true -> c <> "."%char.
Proof. intros H ->. discriminate H. Qed.

Lemma segment_char_not_dot c : segment_char c -> c <> "."%char.
Proof.
  intros [H | [H | H]].
  - now apply alpha_not_dot.
  - now apply digit_not_dot.
  - subst c. discriminate.
Qed.

(** ** Reading the grammar one character at a time *)

Lemma SegmentTail_AfterLetter s : SegmentTail s -> AfterLetter s.
Proof. induction 1; [apply after_end | now apply after_char]. Qed.

Lemma SegmentTail_dot_AfterLetter t more :
  SegmentTail t -> DottedName more -> AfterLetter (t ++ "." ++ more).
Proof.
  intros Ht Hm. induction Ht as [| c s Hc Hs IH]; simpl.
  - now apply after_dot.
  - now apply after_char.
Qed.

Lemma AfterLetter_split s :
  AfterLetter s ->
  SegmentTail s \/
  exists t more, s = t ++ "." ++ more /\ SegmentTail t /\ DottedName more.
Proof.
  induction 1 as [| c s Hc Hs IH | s Hs].
  - left. apply tail_done.
  - destruct IH as [IH | (t & more & -> & Ht & Hm)].
    + left. now apply tail_more.
    + right. exists (String c t), more. repeat split; trivial.
      now apply tail_more.
  - right. exists "", s. repeat split; trivial. apply tail_done.
Qed.

Lemma DottedName_nonempty : ~ DottedName "".
Proof.
  intros H. remember "" as s eqn:E. destruct H as [seg Hs | seg more Hs Hm].
  - subst seg. inversion Hs.
  - destruct Hs. discriminate E.
Qed.

Lemma DottedName_cons_iff c s :
  DottedName (String c s) <-> IsAsciiAlpha c = true /\ AfterLetter s.
Proof.
  split.
  - intros H. remember (String c s) as w eqn:E.
    destruct H as [seg Hs | seg more Hs Hm].
    + subst seg. inversion Hs; subst. split; trivial.
      now apply SegmentTail_AfterLetter.
    + destruct Hs as [c' t Hc Ht]. simpl in E. injection E as E1 E2. subst c' s.
      split; trivial. now apply SegmentTail_dot_AfterLetter.
  - intros [Hc Hs]. destruct (AfterLetter_split s Hs)
      as [Ht | (t & more & -> & Ht & Hm)].
    + apply name_last. now apply segment_intro.
    + apply (name_dot (String c t) more); trivial. now apply segment_intro.
Qed.

Lemma AfterLetter_cons_iff c s :
  AfterLetter (String c s) <->
  (segment_char c /\ AfterLetter s) \/ (c = "."%char /\ DottedName s).
Proof.
  split.
  - intros H. inversion H; subst; auto.
  - intros [[Hc Hs] | [-> Hs]]; [now apply after_char | now apply after_dot].
Qed.

(** ** The loop against the grammar *)

Lemma validate_from_spec s :
  (validate_from false false s = true <-> DottedName s) /\
  (validate_from true true s = true <-> AfterLetter s).
Proof.
  induction s as [| c s [IHf IHt]].
  - split; simpl.
    + split; [discriminate | intros H; now apply DottedName_nonempty in H].
    + split; [intros _; apply after_end | reflexivity].
  - rewrite DottedName_cons_iff, AfterLetter_cons_iff. simpl.
    destruct (IsAsciiDigit c) eqn:Hd; simpl.
    { rewrite (digit_not_alpha c Hd). split.
      - split; [discriminate | intros [H _]; discriminate H].
      - rewrite IHt. split.
        + intros H. left. split; trivial. right. now left.
        + intros [[_ H] | [H _]]; trivial.
          now apply digit_not_dot in Hd. }
    destruct (Ascii.eqb_spec c "_") as [-> | Hu]; simpl.
    { split.
      - split; [discriminate | intros [H _]; discriminate H].
      - rewrite IHt. split.
        + intros H. left. split; trivial. right. now right.
        + intros [[_ H] | [H _]]; [trivial | discriminate H]. }
    destruct (Ascii.eqb_spec c ".") as [-> | Hp]; simpl.
    { split.
      - split; [discriminate | intros [H _]; discriminate H].
      - rewrite IHf. split.
        + intros H. now right.
        + intros [[H _] | [_ H]]; trivial.
          now apply segment_char_not_dot in H. }
    destruct (IsAsciiAlpha c) eqn:Ha.
    { rewrite IHt. split.
      - split; [now split | now intros [_ H]].
      - split.
        + intros H. left. split; trivial. now left.
        + intros [[_ H] | [H _]]; [trivial | contradiction]. }
    split.
    + split; [discriminate | intros [H _]; discriminate H].
    + split; [discriminate |].
      intros [[[H | [H | H]] _] | [H _]]; congruence.
Qed.

(** ** The two forms of the grammar agree *)

Lemma concat_cons_nonempty seg segments :
  segments <> [] ->
  String.concat "." (seg :: segments) = seg ++ "." ++ String.concat "." segments.
Proof. destruct segments; [congruence | reflexivity]. Qed.

Lemma DottedName_matches_grammar s : DottedName s <-> matches_grammar s.
Proof.
  split.
  - induction 1 as [seg Hs | seg more Hs Hm (segments & Hne & Hall & ->)].
    + exists [seg]. repeat split; [discriminate | now constructor].
    + exists (seg :: segments). repeat split.
      * discriminate.
      * now constructor.
      * now rewrite concat_cons_nonempty.
  - intros (segments & Hne & Hall & ->).
    induction Hall as [| seg segments Hs Hall IH]; [congruence |].
    destruct segments as [| seg' segments'].
    + now apply name_last.
    + rewrite concat_cons_nonempty by discriminate.
      apply name_dot; trivial. apply IH. discriminate.
Qed.

(** C1: [ValidateExtensionName] returns true exactly on the names of the
    dotted-segment grammar: a non-empty list of segments joined by single
    dots, each segment an ASCII letter followed by ASCII letters, ASCII
    digits or underscores.  "com.example.foo" and "a" are accepted; the empty
    name, "com..foo", ".com", "com.", "1com" and "com._foo" are rejected. *)
Theorem ValidateExtensionName_iff_grammar :
  (forall extension_name,
      ValidateExtensionName extension_name = true <->
      matches_grammar extension_name) /\
  ValidateExtensionName "com.example.foo" = true /\
  ValidateExtensionName "a" = true /\
  ValidateExtensionName "" = false /\
  ValidateExtensionName "com..foo" = false /\
  ValidateExtensionName ".com" = false /\
  ValidateExtensionName "com." = false /\
  ValidateExtensionName "1com" = false /\
  ValidateExtensionName "com._foo" = false.
Proof.
  split.
  - intros extension_name. unfold ValidateExtensionName.
    rewrite <- DottedName_matches_grammar.
    apply (proj1 (validate_from_spec extension_name)).
  - repeat split; reflexivity.
Qed.

(** ** Running the actions *)

Ltac run_action :=
  unfold bind, gets, ret, emit, CHECK, set_extensions_,
    set_render_process_host_; simpl.

Lemma for_each_emit {A} (f : A -> Effect) (l : list A) s :
  for_each (fun x => emit (f x)) l s = Return tt s (map f l).
Proof.
  induction l as [| x l IH]; simpl; [reflexivity |].
  unfold bind at 1. unfold emit at 1. now rewrite IH.
Qed.

Lemma for_each_CreateWebContentsHandler (runtimes : RuntimeList) s :
  for_each (fun runtime => CreateWebContentsHandler (web_contents runtime))
    runtimes s
  = Return tt s (flat_map attachment runtimes).
Proof.
  induction runtimes as [| runtime l IH]; simpl; [reflexivity |].
  unfold bind at 1. unfold CreateWebContentsHandler at 1. run_action.
  now rewrite IH.
Qed.

Lemma RegisterExtensionsForNewHost_eq host s :
  RegisterExtensionsForNewHost host s
  = Return tt s (map (announcement host) (map snd (extensions_ s))).
Proof.
  unfold RegisterExtensionsForNewHost, bind, gets, ExtensionMap.entries.
  pose proof (for_each_emit
                (fun it => announcement host (snd it)) (extensions_ s) s) as H.
  unfold announcement in *. cbv beta zeta in *. rewrite H.
  now rewrite map_map.
Qed.

Lemma CreateRunnersForHandler_eq handler frame_id s :
  CreateRunnersForHandler handler frame_id s
  = Return tt s
      (map (fun extension =>
              AttachExtensionRunner handler frame_id
                {| runner_extension := extension; runner_handler := handler |})
           (map snd (extensions_ s))).
Proof.
  unfold CreateRunnersForHandler, bind, gets, ExtensionMap.entries.
  pose proof (for_each_emit
                (fun it => AttachExtensionRunner handler frame_id
                             {| runner_extension := snd it;
                                runner_handler := handler |})
                (extensions_ s) s) as H.
  cbv beta zeta in *. rewrite H.
  now rewrite map_map.
Qed.

Lemma GetExtensionForName_eq key s :
  GetExtensionForName key s
  = Return (ExtensionMap.find key (extensions_ s)) s [].
Proof. reflexivity. Qed.

Lemma OnRenderProcessHostCreated_first runtimes host s :
  render_process_host_ s = None ->
  OnRenderProcessHostCreated runtimes host s
  = Return tt
      {| extensions_ := extensions_ s; render_process_host_ := Some host |}
      (map (announcement host) (map snd (extensions_ s)) ++
       flat_map attachment runtimes).
Proof.
  intros Hnull. unfold OnRenderProcessHostCreated.
  unfold bind at 1. unfold gets at 1. rewrite Hnull. simpl.
  unfold bind at 1. unfold set_render_process_host_ at 1.
  unfold bind at 1. rewrite RegisterExtensionsForNewHost_eq.
  rewrite for_each_CreateWebContentsHandler. reflexivity.
Qed.

Lemma OnRenderProcessHostCreated_again runtimes host s current :
  render_process_host_ s = Some current ->
  OnRenderProcessHostCreated runtimes host s = Return tt s [].
Proof.
  intros Hset. unfold OnRenderProcessHostCreated, bind, gets.
  now rewrite Hset.
Qed.

Lemma OnRuntimeAdded_attached runtime s current :
  render_process_host_ s = Some current ->
  OnRuntimeAdded runtime s = Return tt s (attachment runtime).
Proof.
  intros Hset. unfold OnRuntimeAdded, bind at 1, gets. now rewrite Hset.
Qed.

Lemma OnRuntimeAdded_unattached runtime s :
  render_process_host_ s = None ->
  OnRuntimeAdded runtime s = Return tt s [].
Proof.
  intros Hnull. unfold OnRuntimeAdded, bind, gets. now rewrite Hnull.
Qed.

(** The four ways through [RegisterExtension]. *)

Lemma RegisterExtension_attached extension s current :
  render_process_host_ s = Some current ->
  RegisterExtension extension s = Abort [].
Proof.
  intros Hset. unfold RegisterExtension, bind, gets, CHECK.
  now rewrite Hset.
Qed.

Lemma RegisterExtension_duplicate extension s present :
  render_process_host_ s = None ->
  ExtensionMap.find (name extension) (extensions_ s) = Some present ->
  RegisterExtension extension s = Return false s [].
Proof.
  intros Hnull Hfind. unfold RegisterExtension, bind, gets, CHECK.
  rewrite Hnull. simpl. now rewrite Hfind.
Qed.

Lemma RegisterExtension_invalid extension s :
  render_process_host_ s = None ->
  ExtensionMap.find (name extension) (extensions_ s) = None ->
  ValidateExtensionName (name extension) = false ->
  RegisterExtension extension s
  = Return false s
      [LogWarning ("Ignoring extension with invalid name: " ++ name extension)].
Proof.
  intros Hnull Hfind Hbad. unfold RegisterExtension, bind, gets, CHECK.
  rewrite Hnull. simpl. rewrite Hfind, Hbad. reflexivity.
Qed.

Lemma RegisterExtension_fresh extension s :
  render_process_host_ s = None ->
  ExtensionMap.find (name extension) (extensions_ s) = None ->
  ValidateExtensionName (name extension) = true ->
  RegisterExtension extension s
  = Return true
      {| extensions_ :=
           ExtensionMap.assign (name extension) extension (extensions_ s);
         render_process_host_ := render_process_host_ s |} [].
Proof.
  destruct s as [extensions current]. simpl. intros -> Hfind Hgood.
  unfold RegisterExtension, bind, gets, CHECK. simpl.
  rewrite Hfind, Hgood. reflexivity.
Qed.

(** ** The container *)

Lemma find_app key (m1 m2 : ExtensionMap.t) :
  ExtensionMap.find key (m1 ++ m2)%list =
  match ExtensionMap.find key m1 with
  | Some v => Some v
  | None => ExtensionMap.find key m2
  end.
Proof.
  induction m1 as [| [k v] m1 IH]; simpl; [reflexivity |].
  now destruct (String.eqb k key).
Qed.

Lemma assign_fresh key value (m : ExtensionMap.t) :
  ExtensionMap.find key m = None ->
  ExtensionMap.assign key value m = (m ++ [(key, value)])%list.
Proof.
  induction m as [| [k v] m IH]; simpl; [reflexivity |].
  destruct (String.eqb k key); [discriminate |].
  intros H. now rewrite IH.
Qed.

Lemma find_entries_Some key (l : list XWalkExtension) extension :
  ExtensionMap.find key (map entry_of l) = Some extension ->
  In extension l /\ name extension = key.
Proof.
  induction l as [| e l IH]; simpl; [discriminate |].
  destruct (String.eqb_spec (name e) key) as [Heq | Hne].
  - intros [= ->]. auto.
  - intros H. destruct (IH H). auto.
Qed.

Lemma find_entries_None key (l : list XWalkExtension) :
  (forall extension, In extension l -> name extension <> key) ->
  ExtensionMap.find key (map entry_of l) = None.
Proof.
  intros Hnone. destruct (ExtensionMap.find key (map entry_of l)) eqn:E;
    [| reflexivity].
  apply find_entries_Some in E as [Hin Hname]. now apply Hnone in Hin.
Qed.

Lemma find_entries_In (l : list XWalkExtension) extension :
  NoDup (map name l) -> In extension l ->
  ExtensionMap.find (name extension) (map entry_of l) = Some extension.
Proof.
  induction l as [| e l IH]; simpl; [contradiction |].
  intros Hnodup [-> | Hin].
  - now rewrite String.eqb_refl.
  - inversion Hnodup as [| ? ? Hnotin Hrest]; subst.
    destruct (String.eqb_spec (name e) (name extension)) as [Heq | Hne].
    + exfalso. apply Hnotin. rewrite Heq. now apply in_map.
    + now apply IH.
Qed.

(** ** One call at a time *)

Lemma bind_Return {A B} (m : Action A) (k : A -> Action B) s b s' out :
  bind m k s = Return b s' out ->
  exists a s1 e1 e2,
    m s = Return a s1 e1 /\ k a s1 = Return b s' e2 /\ out = (e1 ++ e2)%list.
Proof.
  unfold bind. destruct (m s) as [a s1 e1 | e1]; [| discriminate].
  destruct (k a s1) as [b' s2 e2 | e2] eqn:E; [| discriminate].
  intros [= -> -> <-]. now exists a, s1, e1, e2.
Qed.

Lemma RegisterExtension_Return extension s ok s' out :
  RegisterExtension extension s = Return ok s' out ->
  render_process_host_ s = None /\
  ((ok = false /\ s' = s) \/
   (ok = true /\
    ExtensionMap.find (name extension) (extensions_ s) = None /\
    ValidateExtensionName (name extension) = true /\
    extensions_ s' = (extensions_ s ++ [entry_of extension])%list /\
    render_process_host_ s' = None /\ out = [])).
Proof.
  destruct (render_process_host_ s) as [current |] eqn:Hhost.
  { now rewrite (RegisterExtension_attached extension s current Hhost). }
  split; [reflexivity |].
  destruct (ExtensionMap.find (name extension) (extensions_ s))
    as [present |] eqn:Hfind.
  { rewrite (RegisterExtension_duplicate extension s present Hhost Hfind) in H.
    injection H as <- <- <-. now left. }
  destruct (ValidateExtensionName (name extension)) eqn:Hvalid.
  - rewrite (RegisterExtension_fresh extension s Hhost Hfind Hvalid) in H.
    injection H as <- <- <-. right. simpl.
    rewrite (assign_fresh _ _ _ Hfind). auto 6.
  - rewrite (RegisterExtension_invalid extension s Hhost Hfind Hvalid) in H.
    injection H as <- <- <-. now left.
Qed.

Lemma registered_cons c calls r replies :
  registered (c :: calls) (r :: replies)
  = (added c r ++ registered calls replies)%list.
Proof. destruct c, r as [| [] |]; reflexivity. Qed.

Lemma perform_Return c s r s' out :
  perform c s = Return r s' out ->
  extensions_ s' = (extensions_ s ++ map entry_of (added c r))%list /\
  Forall (fun extension =>
            ValidateExtensionName (name extension) = true /\
            ExtensionMap.find (name extension) (extensions_ s) = None)
         (added c r) /\
  (forall current,
      render_process_host_ s = Some current ->
      render_process_host_ s' = Some current).
Proof.
  destruct c as [extension | runtimes host | key | handler frame_id | runtime];
    simpl; intros H; apply bind_Return in H
    as (a & s1 & e1 & e2 & Hcall & Hret & ->); injection Hret as <- <- <-.
  - apply RegisterExtension_Return in Hcall
      as [Hhost [[-> ->] | (-> & Hfind & Hvalid & Hext & Hhost' & ->)]]; simpl.
    + rewrite app_nil_r. repeat split; [constructor | congruence].
    + repeat split; trivial; [| congruence]. now repeat constructor.
  - simpl. rewrite app_nil_r.
    destruct (render_process_host_ s) as [current |] eqn:Hhost.
    + rewrite (OnRenderProcessHostCreated_again _ _ _ _ Hhost) in Hcall.
      injection Hcall as <- <-. repeat split; [constructor | congruence].
    + rewrite (OnRenderProcessHostCreated_first _ _ _ Hhost) in Hcall.
      injection Hcall as <- <-. repeat split; [constructor | congruence].
  - rewrite GetExtensionForName_eq in Hcall. injection Hcall as <- <- <-.
    simpl. rewrite app_nil_r. repeat split; [constructor | congruence].
  - rewrite CreateRunnersForHandler_eq in Hcall. injection Hcall as <- <-.
    simpl. rewrite app_nil_r. repeat split; [constructor | congruence].
  - simpl. rewrite app_nil_r.
    destruct (render_process_host_ s) as [current |] eqn:Hhost.
    + rewrite (OnRuntimeAdded_attached _ _ _ Hhost) in Hcall.
      injection Hcall as <- <-. repeat split; [constructor | congruence].
    + rewrite (OnRuntimeAdded_unattached _ _ Hhost) in Hcall.
      injection Hcall as <- <-. repeat split; [constructor | congruence].
Qed.

(** ** Whole histories *)

Lemma find_entries_fresh key (l : list XWalkExtension) :
  ExtensionMap.find key (map entry_of l) = None -> ~ In key (map name l).
Proof.
  induction l as [| e l IH]; simpl; [tauto |].
  destruct (String.eqb_spec (name e) key) as [Heq | Hne]; [discriminate |].
  intros H [Hin | Hin]; [contradiction | now apply IH].
Qed.

Lemma registry_ok_added (l : list XWalkExtension) c r :
  registry_ok l ->
  Forall (fun extension =>
            ValidateExtensionName (name extension) = true /\
            ExtensionMap.find (name extension) (map entry_of l) = None)
         (added c r) ->
  registry_ok (l ++ added c r).
Proof.
  intros [Hnodup Hvalid] Hadded.
  destruct c, r as [| [] |]; simpl in *;
    try (rewrite app_nil_r; now split).
  inversion Hadded as [| ? ? [Hv Hfresh] _]; subst. split.
  - rewrite map_app. apply NoDup_app; trivial.
    + simpl. constructor; [tauto | constructor].
    + intros key Hin [<- | []]. now apply find_entries_fresh in Hfresh.
  - apply Forall_app. split; trivial. now constructor.
Qed.

Lemma run_Return calls :
  forall s0 l0 replies s out,
    run calls s0 = Return replies s out ->
    extensions_ s0 = map entry_of l0 ->
    registry_ok l0 ->
    extensions_ s = map entry_of (l0 ++ registered calls replies) /\
    registry_ok (l0 ++ registered calls replies) /\
    (forall current,
        render_process_host_ s0 = Some current ->
        render_process_host_ s = Some current).
Proof.
  induction calls as [| c calls IH]; intros s0 l0 replies s out Hrun Hext Hok.
  - injection Hrun as <- <- <-. simpl. rewrite app_nil_r. auto.
  - simpl in Hrun. apply bind_Return in Hrun
      as (r & s1 & e1 & e2 & Hcall & Hrest & ->).
    apply bind_Return in Hrest as (rs & s2 & e3 & e4 & Hrest & Hret & ->).
    injection Hret as <- <- <-.
    apply perform_Return in Hcall as (Hext1 & Hadded & Hhost).
    rewrite Hext in Hext1, Hadded. rewrite <- map_app in Hext1.
    pose proof (registry_ok_added l0 c r Hok Hadded) as Hok1.
    destruct (IH s1 (l0 ++ added c r)%list rs s2 e3 Hrest Hext1 Hok1)
      as (Hext2 & Hok2 & Hhost2).
    rewrite registered_cons, app_assoc. auto.
Qed.

Lemma history_registry calls replies s out :
  run calls XWalkExtensionService_new = Return replies s out ->
  extensions_ s = map entry_of (registered calls replies) /\
  registry_ok (registered calls replies).
Proof.
  intros Hrun.
  destruct (run_Return calls XWalkExtensionService_new [] replies s out Hrun)
    as (Hext & Hok & _).
  - reflexivity.
  - split; simpl; constructor.
  - now split.
Qed.

Lemma snd_entries (l : list XWalkExtension) : map snd (map entry_of l) = l.
Proof. induction l as [| e l IH]; simpl; [reflexivity | now rewrite IH]. Qed.

Lemma sample_history :
  run sample_calls XWalkExtensionService_new
  = Return sample_replies sample_service sample_effects.
Proof. reflexivity. Qed.

Lemma run_keeps_host calls :
  forall s replies s' out current,
    run calls s = Return replies s' out ->
    render_process_host_ s = Some current ->
    render_process_host_ s' = Some current.
Proof.
  induction calls as [| c calls IH]; intros s replies s' out current Hrun Hhost.
  - injection Hrun as <- <- <-. exact Hhost.
  - simpl in Hrun. apply bind_Return in Hrun
      as (r & s1 & e1 & e2 & Hcall & Hrest & ->).
    apply bind_Return in Hrest as (rs & s2 & e3 & e4 & Hrest & Hret & ->).
    injection Hret as <- <- <-.
    apply perform_Return in Hcall as (_ & _ & Hkeep).
    exact (IH s1 rs s2 e3 current Hrest (Hkeep current Hhost)).
Qed.

(** ** Effects of the first host, in order *)

Lemma filter_announcements host (l : list XWalkExtension)
    (runtimes : RuntimeList) :
  filter is_announcement
    (map (announcement host) l ++ flat_map attachment runtimes)
  = map (announcement host) l.
Proof.
  rewrite filter_app.
  assert (Hatt : filter is_announcement (flat_map attachment runtimes) = []).
  { induction runtimes as [| runtime rest IH]; simpl; trivial. }
  rewrite Hatt, app_nil_r.
  induction l as [| e l IH]; simpl; [reflexivity | now rewrite IH].
Qed.

Lemma announcements_are_sends host (l : list XWalkExtension) :
  Forall (fun e => is_announcement e = true) (map (announcement host) l).
Proof. induction l; simpl; constructor; trivial. Qed.

Lemma attachments_are_attachments (runtimes : RuntimeList) :
  Forall (fun e => is_attachment e = true) (flat_map attachment runtimes).
Proof. induction runtimes; simpl; repeat constructor; trivial. Qed.

Lemma announcement_not_attachment e :
  is_announcement e = true -> is_attachment e = false.
Proof. now destruct e. Qed.

Lemma earlier_part_comes_first {A} (p q : A -> bool) (l1 l2 : list A) :
  Forall (fun x => p x = true) l1 ->
  Forall (fun x => q x = true) l2 ->
  (forall x, p x = true -> q x = false) ->
  forall i j a b,
    nth_error (l1 ++ l2) i = Some a -> q a = true ->
    nth_error (l1 ++ l2) j = Some b -> p b = true ->
    j < i.
Proof.
  intros H1 H2 Hpq i j a b Hi Hqa Hj Hpb.
  rewrite Forall_forall in H1, H2.
  assert (Hlen_i : length l1 <= i).
  { destruct (Nat.le_gt_cases (length l1) i) as [Hle | Hlt]; trivial.
    rewrite nth_error_app1 in Hi by exact Hlt.
    apply nth_error_In, H1, Hpq in Hi. congruence. }
  assert (Hlen_j : j < length l1).
  { destruct (Nat.le_gt_cases (length l1) j) as [Hle | Hlt]; trivial.
    rewrite nth_error_app2 in Hj by exact Hle.
    apply nth_error_In, H2 in Hj. apply Hpq in Hpb. congruence. }
  lia.
Qed.

(** * The properties of the design document *)

(** C2: after any history of calls that leaves the service without a render
    process host, the first host-created event sends to that host exactly one
    register-extension message (name and JavaScript API) per extension whose
    registration succeeded, in the order in which those registrations were
    made. *)
Theorem announcements_in_registration_order
    calls replies s out runtimes host :
  run calls XWalkExtensionService_new = Return replies s out ->
  render_process_host_ s = None ->
  exists s' effects,
    OnRenderProcessHostCreated runtimes host s = Return tt s' effects /\
    filter is_announcement effects
    = map (announcement host) (registered calls replies).
Proof.
  intros Hrun Hhost.
  destruct (history_registry calls replies s out Hrun) as [Hext _].
  rewrite (OnRenderProcessHostCreated_first runtimes host s Hhost).
  eexists _, _. split; [reflexivity |].
  now rewrite filter_announcements, Hext, snd_entries.
Qed.

Lemma announcements_in_registration_order_witness :
  exists s' effects,
    OnRenderProcessHostCreated [main_runtime] 5%N sample_service
    = Return tt s' effects /\
    filter is_announcement effects
    = map (announcement 5%N) [echo_extension; clock_extension].
Proof.
  exact (announcements_in_registration_order
           sample_calls sample_replies sample_service sample_effects
           [main_runtime] 5%N eq_refl eq_refl).
Defined.

(** C3, as stated, fails: with a render process host recorded, registering an
    extension does not return an error to the caller; the [CHECK] at the top
    of [RegisterExtension] is fatal, whether the name is valid or not. *)
Lemma register_after_attach_counterexample :
  render_process_host_ attached_service = Some 5%N /\
  RegisterExtension echo_extension attached_service = Abort [] /\
  RegisterExtension misnamed_extension attached_service = Abort [] /\
  ~ (exists ok s' out,
        RegisterExtension echo_extension attached_service = Return ok s' out).
Proof.
  repeat split; intros (ok & s' & out & H); discriminate H.
Qed.

(** C3, amended: once a render process host is recorded, every call of
    [RegisterExtension], whatever the extension's name, fails the [CHECK] on
    entry: the call is fatal, nothing is returned to the caller, and nothing
    was logged, sent or stored before the failure. *)
Theorem register_after_attach_is_fatal s current extension :
  render_process_host_ s = Some current ->
  RegisterExtension extension s = Abort [].
Proof. apply RegisterExtension_attached. Qed.

Lemma register_after_attach_is_fatal_witness :
  RegisterExtension misnamed_extension attached_service = Abort [].
Proof.
  exact (register_after_attach_is_fatal
           attached_service 5%N misnamed_extension eq_refl).
Defined.

(** C4: the first host-created event, in one call of the handler, first
    records the host, then in the state with the host recorded sends the
    announcements of all registered extensions, and then attaches a handler
    to each runtime that exists; in the effects of the call every
    announcement stands before every attachment. *)
Theorem first_host_announces_then_attaches runtimes host s :
  render_process_host_ s = None ->
  exists s' announcements attachments,
    set_render_process_host_ (Some host) s = Return tt s' [] /\
    render_process_host_ s' = Some host /\
    extensions_ s' = extensions_ s /\
    RegisterExtensionsForNewHost host s' = Return tt s' announcements /\
    announcements = map (announcement host) (enumerate s) /\
    for_each (fun runtime => CreateWebContentsHandler (web_contents runtime))
      runtimes s' = Return tt s' attachments /\
    attachments = flat_map attachment runtimes /\
    OnRenderProcessHostCreated runtimes host s
    = Return tt s' (announcements ++ attachments) /\
    (forall i j attach announce,
        nth_error (announcements ++ attachments) i = Some attach ->
        is_attachment attach = true ->
        nth_error (announcements ++ attachments) j = Some announce ->
        is_announcement announce = true ->
        j < i).
Proof.
  intros Hhost.
  exists {| extensions_ := extensions_ s; render_process_host_ := Some host |},
    (map (announcement host) (enumerate s)), (flat_map attachment runtimes).
  repeat split.
  - apply RegisterExtensionsForNewHost_eq.
  - apply for_each_CreateWebContentsHandler.
  - now apply OnRenderProcessHostCreated_first.
  - apply (earlier_part_comes_first is_announcement is_attachment).
    + apply announcements_are_sends.
    + apply attachments_are_attachments.
    + apply announcement_not_attachment.
Qed.

Lemma first_host_announces_then_attaches_witness :
  exists s' announcements attachments,
    set_render_process_host_ (Some 5%N) sample_service = Return tt s' [] /\
    render_process_host_ s' = Some 5%N /\
    extensions_ s' = extensions_ sample_service /\
    RegisterExtensionsForNewHost 5%N s' = Return tt s' announcements /\
    announcements = map (announcement 5%N) (enumerate sample_service) /\
    for_each (fun runtime => CreateWebContentsHandler (web_contents runtime))
      [main_runtime; popup_runtime] s' = Return tt s' attachments /\
    attachments = flat_map attachment [main_runtime; popup_runtime] /\
    OnRenderProcessHostCreated [main_runtime; popup_runtime] 5%N sample_service
    = Return tt s' (announcements ++ attachments) /\
    (forall i j attach announce,
        nth_error (announcements ++ attachments) i = Some attach ->
        is_attachment attach = true ->
        nth_error (announcements ++ attachments) j = Some announce ->
        is_announcement announce = true ->
        j < i).
Proof.
  exact (first_host_announces_then_attaches
           [main_runtime; popup_runtime] 5%N sample_service eq_refl).
Defined.

Lemma find_None_no_entry key (m : ExtensionMap.t) :
  ExtensionMap.find key m = None ->
  filter (fun it => String.eqb (fst it) key) m = [].
Proof.
  induction m as [| [k v] m IH]; simpl; [reflexivity |].
  destruct (String.eqb k key); [discriminate | exact IH].
Qed.

(** C5, as stated, fails: on the freshly constructed service, the first of
    two registrations under the same name "1com" does not succeed (the name
    is invalid), and after both calls the registry has no entry for it.
    Likewise, in a state that already holds "echo", the first of two further
    registrations under "echo" does not succeed. *)
Lemma same_name_twice_counterexample :
  render_process_host_ XWalkExtensionService_new = None /\
  name misnamed_twin = name misnamed_extension /\
  RegisterExtension misnamed_extension XWalkExtensionService_new
  = Return false XWalkExtensionService_new
      [LogWarning "Ignoring extension with invalid name: 1com"] /\
  RegisterExtension misnamed_twin XWalkExtensionService_new
  = Return false XWalkExtensionService_new
      [LogWarning "Ignoring extension with invalid name: 1com"] /\
  entries_named "1com" XWalkExtensionService_new = 0 /\
  render_process_host_ sample_service = None /\
  RegisterExtension echo_twin sample_service = Return false sample_service [].
Proof. repeat split. Qed.

(** C5, amended: in a state without a render process host, for two
    extensions carrying the same name, where that name passes the validator
    and is not yet in the registry, the first registration returns true, the
    second returns false with no effect and no state change, and afterwards
    the registry holds exactly one entry for the name, the first extension,
    while every other name is looked up as before. *)
Theorem same_name_twice first second s :
  render_process_host_ s = None ->
  name second = name first ->
  ValidateExtensionName (name first) = true ->
  ExtensionMap.find (name first) (extensions_ s) = None ->
  exists s1,
    RegisterExtension first s = Return true s1 [] /\
    RegisterExtension second s1 = Return false s1 [] /\
    render_process_host_ s1 = None /\
    entries_named (name first) s1 = 1 /\
    ExtensionMap.find (name first) (extensions_ s1) = Some first /\
    (forall key,
        key <> name first ->
        ExtensionMap.find key (extensions_ s1)
        = ExtensionMap.find key (extensions_ s)).
Proof.
  intros Hhost Hname Hvalid Hfresh.
  rewrite (RegisterExtension_fresh first s Hhost Hfresh Hvalid).
  rewrite (assign_fresh _ _ _ Hfresh), Hhost.
  eexists. split; [reflexivity |].
  assert (Hfound :
            ExtensionMap.find (name first)
              (extensions_ s ++ [(name first, first)])%list = Some first).
  { rewrite find_app, Hfresh. simpl. now rewrite String.eqb_refl. }
  repeat split; trivial.
  - apply (RegisterExtension_duplicate second _ first); trivial.
    simpl. now rewrite Hname.
  - unfold entries_named, ExtensionMap.entries. simpl.
    rewrite filter_app, (find_None_no_entry _ _ Hfresh). simpl.
    now rewrite String.eqb_refl.
  - intros key Hkey. simpl. rewrite find_app. simpl.
    destruct (String.eqb_spec (name first) key) as [Heq | Hne];
      [congruence |].
    now destruct (ExtensionMap.find key (extensions_ s)).
Qed.

Lemma same_name_twice_witness :
  exists s1,
    RegisterExtension echo_extension XWalkExtensionService_new
    = Return true s1 [] /\
    RegisterExtension echo_twin s1 = Return false s1 [] /\
    render_process_host_ s1 = None /\
    entries_named "echo" s1 = 1 /\
    ExtensionMap.find "echo" (extensions_ s1) = Some echo_extension /\
    (forall key,
        key <> "echo" ->
        ExtensionMap.find key (extensions_ s1)
        = ExtensionMap.find key (extensions_ XWalkExtensionService_new)).
Proof.
  exact (same_name_twice echo_extension echo_twin XWalkExtensionService_new
           eq_refl eq_refl eq_refl eq_refl).
Defined.

(** C6: in every state the service reaches without a render process host,
    registering an extension whose name the validator rejects returns false,
    leaves the service state, and so the registry, as it was, stores no entry
    under that name, and logs one warning that carries the name. *)
Theorem invalid_name_is_rejected calls replies s out extension :
  run calls XWalkExtensionService_new = Return replies s out ->
  render_process_host_ s = None ->
  ValidateExtensionName (name extension) = false ->
  RegisterExtension extension s
  = Return false s
      [LogWarning ("Ignoring extension with invalid name: " ++ name extension)]
  /\ ExtensionMap.find (name extension) (extensions_ s) = None.
Proof.
  intros Hrun Hhost Hbad.
  destruct (history_registry calls replies s out Hrun) as [Hext [_ Hvalid]].
  assert (Hfresh : ExtensionMap.find (name extension) (extensions_ s) = None).
  { rewrite Hext. apply find_entries_None. intros e Hin Hname.
    rewrite Forall_forall in Hvalid. apply Hvalid in Hin. congruence. }
  split; trivial. now apply RegisterExtension_invalid.
Qed.

Lemma invalid_name_is_rejected_witness :
  RegisterExtension misnamed_twin sample_service
  = Return false sample_service
      [LogWarning ("Ignoring extension with invalid name: " ++ "1com")]
  /\ ExtensionMap.find "1com" (extensions_ sample_service) = None.
Proof.
  exact (invalid_name_is_rejected sample_calls sample_replies sample_service
           sample_effects misnamed_twin eq_refl eq_refl eq_refl).
Defined.

(** C7: once a render process host is recorded, every further host-created
    event returns at once: the state is unchanged, nothing is sent and no
    handler is attached; and through any further calls the recorded host
    stays the same, so the service attaches at most once. *)
Theorem later_hosts_are_ignored s current :
  render_process_host_ s = Some current ->
  (forall runtimes host,
      OnRenderProcessHostCreated runtimes host s = Return tt s []) /\
  (forall calls replies s' out,
      run calls s = Return replies s' out ->
      render_process_host_ s' = Some current).
Proof.
  intros Hhost. split.
  - intros runtimes host.
    now apply (OnRenderProcessHostCreated_again runtimes host s current).
  - intros calls replies s' out Hrun.
    now apply (run_keeps_host calls s replies s' out).
Qed.

Lemma later_hosts_are_ignored_witness :
  OnRenderProcessHostCreated [main_runtime] 6%N attached_service
  = Return tt attached_service [] /\
  render_process_host_ attached_service = Some 5%N.
Proof.
  destruct (later_hosts_are_ignored attached_service 5%N eq_refl)
    as [Hignored Hkept].
  split.
  - exact (Hignored [main_runtime] 6%N).
  - exact (Hkept
             [CallOnRenderProcessHostCreated [main_runtime] 6%N;
              CallOnRuntimeAdded popup_runtime]
             [Done; Done] attached_service (attachment popup_runtime)
             eq_refl).
Defined.

(** C8: on a runtime-added event, a service with a render process host
    recorded attaches a handler to the new runtime's WebContents at once; a
    service without one does nothing for that event. *)
Theorem runtime_added_attaches_only_when_attached runtime s :
  (forall current,
      render_process_host_ s = Some current ->
      OnRuntimeAdded runtime s
      = Return tt s
          [CreateForWebContents (web_contents runtime);
           set_extension_service (FromWebContents (web_contents runtime))]) /\
  (render_process_host_ s = None ->
   OnRuntimeAdded runtime s = Return tt s []).
Proof.
  split.
  - intros current Hhost.
    exact (OnRuntimeAdded_attached runtime s current Hhost).
  - apply OnRuntimeAdded_unattached.
Qed.

Lemma runtime_added_attaches_only_when_attached_witness :
  OnRuntimeAdded popup_runtime attached_service
  = Return tt attached_service
      [CreateForWebContents 8%N;
       set_extension_service (FromWebContents 8%N)] /\
  OnRuntimeAdded popup_runtime sample_service = Return tt sample_service [].
Proof.
  split.
  - exact (proj1 (runtime_added_attaches_only_when_attached
                    popup_runtime attached_service) 5%N eq_refl).
  - exact (proj2 (runtime_added_attaches_only_when_attached
                    popup_runtime sample_service) eq_refl).
Defined.

Lemma announced_announcements host (l : list XWalkExtension) :
  announced (map (announcement host) l)
  = map (fun extension => (name extension, GetJavaScriptAPI extension)) l.
Proof. induction l as [| e l IH]; simpl; [reflexivity | now rewrite IH]. Qed.

Lemma runners_attachments handler frame_id (l : list XWalkExtension) :
  runners (map (runner_attachment handler frame_id) l) = l.
Proof. induction l as [| e l IH]; simpl; [reflexivity | now rewrite IH]. Qed.

(** C9: in any state, the announcement loop and the runner-creation loop go
    through the same extensions in the same order, the registry's
    enumeration; neither changes the state, so every later run of either
    yields the same sequence again. *)
Theorem both_enumerations_agree s host handler frame_id :
  exists sent attached,
    RegisterExtensionsForNewHost host s = Return tt s sent /\
    CreateRunnersForHandler handler frame_id s = Return tt s attached /\
    sent = map (announcement host) (enumerate s) /\
    attached = map (runner_attachment handler frame_id) (enumerate s) /\
    runners attached = enumerate s /\
    announced sent
    = map (fun extension => (name extension, GetJavaScriptAPI extension))
        (runners attached).
Proof.
  exists (map (announcement host) (enumerate s)),
    (map (runner_attachment handler frame_id) (enumerate s)).
  rewrite runners_attachments, announced_announcements.
  repeat split.
  - apply RegisterExtensionsForNewHost_eq.
  - apply CreateRunnersForHandler_eq.
Qed.

(** C10: along any history of calls on a new service, looking up the name of
    an extension whose registration returned true yields that very
    extension; looking up a name under which no registration returned true
    yields nothing; and a lookup, in any state, returns the state it was
    given and has no effect. *)
Theorem register_lookup_round_trip calls replies s out :
  run calls XWalkExtensionService_new = Return replies s out ->
  (forall extension,
      In extension (registered calls replies) ->
      GetExtensionForName (name extension) s = Return (Some extension) s []) /\
  (forall key,
      (forall extension,
          In extension (registered calls replies) -> name extension <> key) ->
      GetExtensionForName key s = Return None s []) /\
  (forall key s0,
      GetExtensionForName key s0
      = Return (ExtensionMap.find key (extensions_ s0)) s0 []).
Proof.
  intros Hrun.
  destruct (history_registry calls replies s out Hrun) as [Hext [Hnodup _]].
  repeat split.
  - intros extension Hin. rewrite GetExtensionForName_eq, Hext.
    now rewrite (find_entries_In _ _ Hnodup Hin).
  - intros key Hnone. rewrite GetExtensionForName_eq, Hext.
    now rewrite (find_entries_None _ _ Hnone).
Qed.

Lemma register_lookup_round_trip_witness :
  GetExtensionForName "com.example.clock" sample_service
  = Return (Some clock_extension) sample_service [] /\
  GetExtensionForName "1com" sample_service = Return None sample_service [].
Proof.
  destruct (register_lookup_round_trip sample_calls sample_replies
              sample_service sample_effects eq_refl)
    as (Hfound & Hmissing & _).
  split.
  - apply (Hfound clock_extension). simpl. auto.
  - apply Hmissing. intros extension [<- | [<- | []]]; discriminate.
Defined.

(** * Further properties of the extension service *)

Lemma run_app (first_calls later_calls : list Call) s :
  run (first_calls ++ later_calls) s =
  match run first_calls s with
  | Return r1 s1 e1 =>
      match run later_calls s1 with
      | Return r2 s2 e2 => Return (r1 ++ r2)%list s2 (e1 ++ e2)
      | Abort e2 => Abort (e1 ++ e2)
      end
  | Abort e1 => Abort e1
  end.
Proof.
  revert s. induction first_calls as [| c calls IH]; intros s; simpl.
  - unfold ret. now destruct (run later_calls s).
  - unfold bind at 1 3. destruct (perform c s) as [r s1 e1 | e1]; trivial.
    unfold bind at 1 2. rewrite IH. unfold ret.
    destruct (run calls s1) as [rs s2 e2 | e2]; trivial.
    destruct (run later_calls s2) as [rs' s3 e3 | e3]; simpl;
      now rewrite !app_nil_r, ?app_assoc.
Qed.

Lemma filter_runner_attachments handler frame_id (l : list XWalkExtension) :
  filter is_announcement (map (runner_attachment handler frame_id) l) = [] /\
  filter is_attachment (map (runner_attachment handler frame_id) l) = [].
Proof. induction l as [| e l [IH1 IH2]]; simpl; auto. Qed.

Lemma filter_attachment_announcements host (l : list XWalkExtension) :
  filter is_attachment (map (announcement host) l) = [].
Proof. induction l as [| e l IH]; simpl; auto. Qed.

(** A call on a service that has its host returns only without touching the
    state, registers nothing and announces nothing. *)
Lemma perform_attached c s current r s' out :
  render_process_host_ s = Some current ->
  perform c s = Return r s' out ->
  s' = s /\ added c r = [] /\ filter is_announcement out = [].
Proof.
  intros Hhost.
  destruct c as [extension | runtimes host | key | handler frame_id | runtime];
    simpl; intros H; apply bind_Return in H
    as (a & s1 & e1 & e2 & Hcall & Hret & ->); injection Hret as <- <- <-.
  - now rewrite (RegisterExtension_attached _ _ _ Hhost) in Hcall.
  - rewrite (OnRenderProcessHostCreated_again _ _ _ _ Hhost) in Hcall.
    inversion Hcall; subst. now repeat split.
  - rewrite GetExtensionForName_eq in Hcall.
    inversion Hcall; subst. now repeat split.
  - rewrite CreateRunnersForHandler_eq in Hcall.
    inversion Hcall; subst. rewrite app_nil_r.
    repeat split. apply (filter_runner_attachments handler frame_id).
  - rewrite (OnRuntimeAdded_attached _ _ _ Hhost) in Hcall.
    inversion Hcall; subst. now repeat split.
Qed.

Lemma run_attached calls :
  forall s current replies s' out,
    render_process_host_ s = Some current ->
    run calls s = Return replies s' out ->
    s' = s /\ registered calls replies = [] /\
    filter is_announcement out = [].
Proof.
  induction calls as [| c calls IH]; intros s current replies s' out Hhost Hrun.
  - injection Hrun as <- <- <-. auto.
  - simpl in Hrun. apply bind_Return in Hrun
      as (r & s1 & e1 & e2 & Hcall & Hrest & ->).
    apply bind_Return in Hrest as (rs & s2 & e3 & e4 & Hrest & Hret & ->).
    injection Hret as <- <- <-.
    destruct (perform_attached c s current r s1 e1 Hhost Hcall)
      as (-> & Hadded & Hquiet).
    destruct (IH s current rs s2 e3 Hhost Hrest) as (-> & Hnone & Hquiet').
    rewrite registered_cons, Hadded, Hnone, !filter_app, Hquiet, Hquiet'.
    now repeat split.
Qed.

(** X1: once a render process host is recorded the service is frozen: any
    further sequence of calls that returns leaves the whole state as it was,
    registers no extension and sends no announcement. *)
Theorem attached_service_is_frozen calls s current replies s' out :
  render_process_host_ s = Some current ->
  run calls s = Return replies s' out ->
  s' = s /\ registered calls replies = [] /\
  filter is_announcement out = [].
Proof. apply run_attached. Qed.

Lemma attached_service_is_frozen_witness :
  attached_service = attached_service /\
  registered [CallOnRenderProcessHostCreated [main_runtime] 6%N;
              CallGetExtensionForName "echo";
              CallOnRuntimeAdded popup_runtime]
             [Done; Found None; Done] = [] /\
  filter is_announcement (attachment popup_runtime) = [].
Proof.
  exact (attached_service_is_frozen
           [CallOnRenderProcessHostCreated [main_runtime] 6%N;
            CallGetExtensionForName "echo";
            CallOnRuntimeAdded popup_runtime]
           attached_service 5%N [Done; Found None; Done]
           attached_service (attachment popup_runtime) eq_refl eq_refl).
Defined.

Lemma run_attached_register_aborts calls :
  forall s current extension later,
    render_process_host_ s = Some current ->
    exists effects,
      run (calls ++ CallRegisterExtension extension :: later) s
      = Abort effects.
Proof.
  intros s current extension later Hhost. rewrite run_app.
  destruct (run calls s) as [r1 s1 e1 | e1] eqn:Hrun; [| now exists e1].
  destruct (run_attached calls s current r1 s1 e1 Hhost Hrun) as (-> & _ & _).
  simpl. unfold bind at 1. unfold perform, bind at 1.
  rewrite (RegisterExtension_attached extension s current Hhost).
  now exists (e1 ++ [])%list.
Qed.

(** X2: a sequence of calls in which a registration comes anywhere after a
    host-created event never runs to its end: from every state it aborts,
    whatever the other calls are and whatever name is registered. *)
Theorem registration_after_host_never_returns
    before runtimes host between extension later s :
  exists effects,
    run (before ++ CallOnRenderProcessHostCreated runtimes host ::
         between ++ CallRegisterExtension extension :: later) s
    = Abort effects.
Proof.
  rewrite run_app.
  destruct (run before s) as [r1 s1 e1 | e1] eqn:Hbefore; [| now exists e1].
  change (CallOnRenderProcessHostCreated runtimes host ::
          between ++ CallRegisterExtension extension :: later)
    with ([CallOnRenderProcessHostCreated runtimes host] ++
          (between ++ CallRegisterExtension extension :: later))%list.
  rewrite run_app.
  destruct (run [CallOnRenderProcessHostCreated runtimes host] s1)
    as [r2 s2 e2 | e2] eqn:Hhost; [| now exists (e1 ++ e2)%list].
  assert (Hset : exists current, render_process_host_ s2 = Some current).
  { simpl in Hhost. unfold bind at 1 in Hhost.
    destruct (render_process_host_ s1) as [current |] eqn:Hs1.
    - unfold perform, bind at 1 in Hhost.
      rewrite (OnRenderProcessHostCreated_again _ _ _ _ Hs1) in Hhost.
      injection Hhost as <- <- <-. now exists current.
    - unfold perform, bind at 1 in Hhost.
      rewrite (OnRenderProcessHostCreated_first _ _ _ Hs1) in Hhost.
      injection Hhost as <- <- <-. now exists host. }
  destruct Hset as [current Hcurrent].
  destruct (run_attached_register_aborts between s2 current extension later
              Hcurrent) as [e3 ->].
  now exists (e1 ++ (e2 ++ e3))%list.
Qed.

Lemma enumerate_history calls replies s out :
  run calls XWalkExtensionService_new = Return replies s out ->
  enumerate s = registered calls replies /\
  NoDup (map name (enumerate s)).
Proof.
  intros Hrun.
  destruct (history_registry calls replies s out Hrun) as [Hext [Hnodup _]].
  unfold enumerate, ExtensionMap.entries.
  rewrite Hext, snd_entries. auto.
Qed.

Lemma RegisterExtension_quiet extension s ok s' out :
  RegisterExtension extension s = Return ok s' out ->
  render_process_host_ s' = None /\
  filter is_announcement out = [] /\ filter is_attachment out = [].
Proof.
  intros H. destruct (render_process_host_ s) as [current |] eqn:Hhost.
  { now rewrite (RegisterExtension_attached extension s current Hhost) in H. }
  destruct (ExtensionMap.find (name extension) (extensions_ s))
    as [present |] eqn:Hfind.
  { rewrite (RegisterExtension_duplicate extension s present Hhost Hfind) in H.
    inversion H; subst. auto. }
  destruct (ValidateExtensionName (name extension)) eqn:Hvalid.
  - rewrite (RegisterExtension_fresh extension s Hhost Hfind Hvalid) in H.
    inversion H; subst. auto.
  - rewrite (RegisterExtension_invalid extension s Hhost Hfind Hvalid) in H.
    inversion H; subst. auto.
Qed.

(** A returning call on a service without a host either leaves it without
    one, announcing and attaching nothing, or records the host and announces
    the whole registry to it. *)
Lemma perform_unattached c s r s' out :
  render_process_host_ s = None ->
  perform c s = Return r s' out ->
  (render_process_host_ s' = None /\
   filter is_announcement out = [] /\ filter is_attachment out = []) \/
  (exists host,
      render_process_host_ s' = Some host /\
      extensions_ s' = extensions_ s /\
      filter is_announcement out = map (announcement host) (enumerate s)).
Proof.
  intros Hhost.
  destruct c as [extension | runtimes host | key | handler frame_id | runtime];
    simpl; intros H; apply bind_Return in H
    as (a & s1 & e1 & e2 & Hcall & Hret & ->); injection Hret as <- <- <-;
    rewrite app_nil_r.
  - left. now apply (RegisterExtension_quiet extension s a).
  - right. exists host.
    rewrite (OnRenderProcessHostCreated_first _ _ _ Hhost) in Hcall.
    inversion Hcall; subst. simpl. repeat split.
    apply filter_announcements.
  - left. rewrite GetExtensionForName_eq in Hcall.
    inversion Hcall; subst. auto.
  - left. rewrite CreateRunnersForHandler_eq in Hcall.
    inversion Hcall; subst.
    destruct (filter_runner_attachments handler frame_id
                (map snd (extensions_ s1))). auto.
  - left. rewrite (OnRuntimeAdded_unattached _ _ Hhost) in Hcall.
    inversion Hcall; subst. auto.
Qed.

Lemma run_unattached calls :
  forall s replies s' out,
    render_process_host_ s = None ->
    run calls s = Return replies s' out ->
    (render_process_host_ s' = None /\
     filter is_announcement out = [] /\ filter is_attachment out = []) \/
    (exists host,
        render_process_host_ s' = Some host /\
        filter is_announcement out = map (announcement host) (enumerate s')).
Proof.
  induction calls as [| c calls IH]; intros s replies s' out Hhost Hrun.
  - injection Hrun as <- <- <-. left. auto.
  - simpl in Hrun. apply bind_Return in Hrun
      as (r & s1 & e1 & e2 & Hcall & Hrest & ->).
    apply bind_Return in Hrest as (rs & s2 & e3 & e4 & Hrest & Hret & ->).
    injection Hret as <- <- <-. rewrite app_nil_r.
    destruct (perform_unattached c s r s1 e1 Hhost Hcall)
      as [(Hhost1 & Hq1 & Hq2) | (host & Hhost1 & Hext & Hann)].
    + destruct (IH s1 rs s2 e3 Hhost1 Hrest)
        as [(Hhost2 & Hq3 & Hq4) | (host & Hhost2 & Hann)].
      * left. rewrite !filter_app, Hq1, Hq2, Hq3, Hq4. auto.
      * right. exists host. rewrite filter_app, Hq1, Hann. auto.
    + right. exists host.
      destruct (run_attached calls s1 host rs s2 e3 Hhost1 Hrest)
        as (-> & _ & Hquiet).
      rewrite filter_app, Hquiet, Hann, app_nil_r.
      unfold enumerate. now rewrite Hext.
Qed.

(** X3: over a whole history of calls on a new service, nothing is announced
    and no handler is attached while no render process host is recorded; and
    once a host is recorded, the announcements of the whole history are
    exactly one per extension of the registry, all sent to that host, for
    extensions with pairwise different names that are exactly those whose
    registration returned true. *)
Theorem each_extension_announced_once calls replies s out :
  run calls XWalkExtensionService_new = Return replies s out ->
  (render_process_host_ s = None ->
   filter is_announcement out = [] /\ filter is_attachment out = []) /\
  (forall host,
      render_process_host_ s = Some host ->
      filter is_announcement out = map (announcement host) (enumerate s)) /\
  NoDup (map name (enumerate s)) /\
  (forall extension,
      In extension (enumerate s) <-> In extension (registered calls replies)).
Proof.
  intros Hrun.
  destruct (enumerate_history calls replies s out Hrun) as [Henum Hnodup].
  destruct (run_unattached calls XWalkExtensionService_new replies s out
              eq_refl Hrun)
    as [(Hhost & Hq1 & Hq2) | (host & Hhost & Hann)].
  - split; [auto | split; [| split]]; trivial.
    + intros host Hsome. congruence.
    + intros extension. now rewrite Henum.
  - split; [| split; [| split]]; trivial.
    + intros Hnone. congruence.
    + intros host' Hsome. congruence.
    + intros extension. now rewrite Henum.
Qed.

Lemma each_extension_announced_once_witness :
  (filter is_announcement sample_effects = [] /\
   filter is_attachment sample_effects = []) /\
  filter is_announcement hosted_effects
  = [announcement 5%N echo_extension; announcement 5%N clock_extension].
Proof.
  split.
  - exact (proj1 (each_extension_announced_once sample_calls sample_replies
                    sample_service sample_effects eq_refl) eq_refl).
  - exact (proj1 (proj2 (each_extension_announced_once hosted_calls
                           hosted_replies hosted_service hosted_effects
                           eq_refl)) 5%N eq_refl).
Defined.

(** X4: in every state a new service reaches, the registry's keys are
    pairwise different, every entry is stored under the name of its own
    extension, and every stored name passes [ValidateExtensionName]. *)
Theorem registry_invariant calls replies s out :
  run calls XWalkExtensionService_new = Return replies s out ->
  NoDup (map fst (extensions_ s)) /\
  Forall (fun it =>
            fst it = name (snd it) /\
            ValidateExtensionName (fst it) = true)
         (extensions_ s).
Proof.
  intros Hrun.
  destruct (history_registry calls replies s out Hrun)
    as [Hext [Hnodup Hvalid]].
  rewrite Hext. split.
  - rewrite map_map. exact Hnodup.
  - rewrite Forall_forall in *. intros it Hin.
    apply in_map_iff in Hin as (extension & <- & Hin). simpl. auto.
Qed.

Lemma registry_invariant_witness :
  NoDup (map fst (extensions_ hosted_service)) /\
  Forall (fun it =>
            fst it = name (snd it) /\
            ValidateExtensionName (fst it) = true)
         (extensions_ hosted_service).
Proof.
  exact (registry_invariant hosted_calls hosted_replies hosted_service
           hosted_effects eq_refl).
Defined.

(** X5: a runtime gets its handler whether it appears before or after the
    first host.  From a state without a host, "runtime added, then host
    created with the runtime in the registry's list" and "host created, then
    runtime added" end in the same state with the same effects in the same
    order. *)
Theorem runtime_and_host_commute s runtimes runtime host :
  render_process_host_ s = None ->
  exists s' effects,
    run [CallOnRuntimeAdded runtime;
         CallOnRenderProcessHostCreated (runtimes ++ [runtime])%list host] s
    = Return [Done; Done] s' effects /\
    run [CallOnRenderProcessHostCreated runtimes host;
         CallOnRuntimeAdded runtime] s
    = Return [Done; Done] s' effects /\
    filter is_attachment effects
    = (flat_map attachment runtimes ++ attachment runtime)%list.
Proof.
  intros Hhost.
  exists {| extensions_ := extensions_ s; render_process_host_ := Some host |},
    (map (announcement host) (map snd (extensions_ s)) ++
     flat_map attachment runtimes ++ attachment runtime)%list.
  split; [| split].
  - simpl. unfold bind at 1. unfold bind at 1.
    rewrite (OnRuntimeAdded_unattached runtime s Hhost).
    unfold ret at 1. unfold bind at 1. unfold bind at 1. unfold bind at 1.
    rewrite (OnRenderProcessHostCreated_first _ host s Hhost).
    unfold ret. simpl. rewrite flat_map_app. simpl.
    now rewrite !app_nil_r.
  - simpl. unfold bind at 1. unfold bind at 1.
    rewrite (OnRenderProcessHostCreated_first runtimes host s Hhost).
    unfold ret at 1. unfold bind at 1. unfold bind at 1. unfold bind at 1.
    rewrite (OnRuntimeAdded_attached runtime
               {| extensions_ := extensions_ s;
                  render_process_host_ := Some host |} host eq_refl).
    unfold ret. simpl. now rewrite !app_nil_r, <- !app_assoc.
  - rewrite !filter_app, filter_attachment_announcements. simpl.
    assert (Hall : forall l, filter is_attachment (flat_map attachment l)
                             = flat_map attachment l).
    { induction l as [| x l IH]; simpl; [reflexivity | now rewrite IH]. }
    now rewrite Hall.
Qed.

Lemma runtime_and_host_commute_witness :
  exists s' effects,
    run [CallOnRuntimeAdded popup_runtime;
         CallOnRenderProcessHostCreated
           ([main_runtime] ++ [popup_runtime])%list 5%N] sample_service
    = Return [Done; Done] s' effects /\
    run [CallOnRenderProcessHostCreated [main_runtime] 5%N;
         CallOnRuntimeAdded popup_runtime] sample_service
    = Return [Done; Done] s' effects /\
    filter is_attachment effects
    = (flat_map attachment [main_runtime] ++ attachment popup_runtime)%list.
Proof.
  exact (runtime_and_host_commute sample_service [main_runtime]
           popup_runtime 5%N eq_refl).
Defined.

Lemma destroy_enumerate s :
  XWalkExtensionService_destroy s
  = RemoveObserver :: map delete_extension (enumerate s).
Proof.
  unfold XWalkExtensionService_destroy, enumerate. now rewrite map_map.
Qed.

Lemma NoDup_deletions (l : list XWalkExtension) :
  NoDup l -> NoDup (RemoveObserver :: map delete_extension l).
Proof.
  intros Hnodup. constructor.
  - intros Hin. apply in_map_iff in Hin as (e & Heq & _). discriminate Heq.
  - induction Hnodup as [| e l Hnotin Hnodup IH]; simpl; constructor; trivial.
    intros Hin. apply in_map_iff in Hin as (e' & [= ->] & Hin). contradiction.
Qed.

(** X6: destroying the service after any history first unregisters it as
    observer and then deletes the extensions whose registration returned
    true, no extension twice; an extension is deleted by the service only if
    a registration of it succeeded. *)
Theorem destructor_deletes_registered_once calls replies s out :
  run calls XWalkExtensionService_new = Return replies s out ->
  hd_error (XWalkExtensionService_destroy s) = Some RemoveObserver /\
  NoDup (XWalkExtensionService_destroy s) /\
  (forall extension,
      In (delete_extension extension) (XWalkExtensionService_destroy s) <->
      In extension (registered calls replies)).
Proof.
  intros Hrun.
  destruct (enumerate_history calls replies s out Hrun) as [Henum Hnodup].
  rewrite destroy_enumerate. split; [reflexivity | split].
  - apply NoDup_deletions. now apply NoDup_map_inv in Hnodup.
  - intros extension. rewrite Henum. simpl. split.
    + intros [Heq | Hin]; [discriminate Heq |].
      apply in_map_iff in Hin as (e & [= ->] & Hin). exact Hin.
    + intros Hin. right. now apply in_map.
Qed.

Lemma destructor_deletes_registered_once_witness :
  hd_error (XWalkExtensionService_destroy hosted_service)
  = Some RemoveObserver /\
  NoDup (XWalkExtensionService_destroy hosted_service) /\
  (forall extension,
      In (delete_extension extension)
         (XWalkExtensionService_destroy hosted_service) <->
      In extension [echo_extension; clock_extension]).
Proof.
  exact (destructor_deletes_registered_once hosted_calls hosted_replies
           hosted_service hosted_effects eq_refl).
Defined.

(** X7: in every state a new service reaches, [CreateRunnersForHandler]
    attaches to the given handler and frame one runner per registered
    extension and nothing else: the runners' extensions have pairwise
    different names and are exactly the extensions whose registration
    returned true, and the state is left as it was. *)
Theorem one_runner_per_extension calls replies s out handler frame_id :
  run calls XWalkExtensionService_new = Return replies s out ->
  exists attached,
    CreateRunnersForHandler handler frame_id s = Return tt s attached /\
    attached = map (runner_attachment handler frame_id) (runners attached) /\
    NoDup (map name (runners attached)) /\
    (forall extension,
        In extension (runners attached) <->
        In extension (registered calls replies)).
Proof.
  intros Hrun.
  destruct (enumerate_history calls replies s out Hrun) as [Henum Hnodup].
  exists (map (runner_attachment handler frame_id) (enumerate s)).
  rewrite runners_attachments. split; [| split; [| split]]; trivial.
  - apply CreateRunnersForHandler_eq.
  - intros extension. now rewrite Henum.
Qed.

Lemma one_runner_per_extension_witness :
  exists attached,
    CreateRunnersForHandler (FromWebContents 7%N) 3 hosted_service
    = Return tt hosted_service attached /\
    attached = map (runner_attachment (FromWebContents 7%N) 3)
                   (runners attached) /\
    NoDup (map name (runners attached)) /\
    (forall extension,
        In extension (runners attached) <->
        In extension [echo_extension; clock_extension]).
Proof.
  exact (one_runner_per_extension hosted_calls hosted_replies hosted_service
           hosted_effects (FromWebContents 7%N) 3%Z eq_refl).
Defined.

(** * Names and namespaces *)

Lemma validate_from_dot flag (first rest : string) :
  validate_from flag flag (first ++ "." ++ rest)
  = validate_from flag flag first && ValidateExtensionName rest.
Proof.
  revert flag. induction first as [| c first IH]; intros flag.
  - simpl. now destruct flag.
  - change ((String c first) ++ "." ++ rest)
      with (String c (first ++ "." ++ rest)).
    cbn [validate_from].
    destruct (IsAsciiDigit c); [destruct flag; simpl; auto |].
    destruct (Ascii.eqb c "_"); [destruct flag; simpl; auto |].
    destruct (Ascii.eqb c "."); [destruct flag; simpl; auto |].
    destruct (IsAsciiAlpha c); auto.
Qed.

(** X8: a name with a dot in it is valid exactly when the part before the
    dot and the part after it are both valid names; so every dotted prefix
    and suffix of a valid name is itself a valid name, and joining two valid
    names with a dot gives a valid name. *)
Theorem ValidateExtensionName_at_dot (first rest : string) :
  ValidateExtensionName (first ++ "." ++ rest)
  = ValidateExtensionName first && ValidateExtensionName rest.
Proof. apply validate_from_dot. Qed.

(** * The component updater's switches *)

Import component_updater.

Lemma std_find_In (vec : list string) (test : string) :
  is_null (std_find vec test) = false <-> In test vec.
Proof.
  induction vec as [| it vec IH]; simpl.
  - split; [discriminate | contradiction].
  - destruct (String.eqb_spec it test) as [-> | Hne]; simpl.
    + split; auto.
    + destruct (std_find vec test) as [n |]; simpl in *.
      * split; [intros _; right; now apply IH | reflexivity].
      * split; [discriminate |]. intros [Heq | Hin]; [contradiction |].
        now apply IH.
Qed.

Lemma HasSwitchValue_spec (vec : list string) (test : string) :
  HasSwitchValue vec test = true <-> In test vec.
Proof.
  destruct vec as [| it vec].
  - simpl. split; [discriminate | contradiction].
  - unfold HasSwitchValue. rewrite negb_true_iff. apply std_find_In.
Qed.

(** X9: [HasSwitchValue] returns true if and only if [test] is one of the
    elements of [vec]; on the empty vector it returns false. *)
Theorem HasSwitchValue_iff_In (vec : list string) (test : string) :
  (HasSwitchValue vec test = true <-> In test vec) /\
  HasSwitchValue [] test = false.
Proof. split; [apply HasSwitchValue_spec | reflexivity]. Qed.

Lemma string_find_split c (s : string) :
  forall found,
    string_find c s = Some found ->
    s = (substring 0 found s ++ String c (substr_from (found + 1) s))%string /\
    string_find c (substring 0 found s) = None.
Proof.
  induction s as [| d s IH]; intros found; simpl; [discriminate |].
  destruct (Ascii.eqb_spec d c) as [-> | Hne].
  - intros [= <-]. simpl. auto.
  - destruct (string_find c s) as [n |] eqn:Hfind; [| discriminate].
    intros [= <-]. destruct (IH n eq_refl) as [Hsplit Hnone]. simpl.
    rewrite <- Hsplit. split; [reflexivity |].
    destruct (Ascii.eqb_spec d c) as [Heq | _]; [contradiction |].
    now rewrite Hnone.
Qed.

Lemma string_find_app c (prefix rest : string) :
  string_find c prefix = None ->
  string_find c (prefix ++ String c rest) = Some (String.length prefix) /\
  substring 0 (String.length prefix) (prefix ++ String c rest) = prefix /\
  substr_from (String.length prefix + 1) (prefix ++ String c rest) = rest.
Proof.
  induction prefix as [| d prefix IH]; simpl.
  - intros _. rewrite Ascii.eqb_refl. auto.
  - destruct (Ascii.eqb d c); [discriminate |].
    destruct (string_find c prefix) as [n |]; [discriminate |].
    intros _. destruct (IH eq_refl) as (-> & -> & ->). auto.
Qed.

Lemma GetSwitchArgument_nonempty (vec : list string) test :
  GetSwitchArgument vec test = GetSwitchArgument_from vec test.
Proof. now destruct vec. Qed.

Lemma GetSwitchArgument_first
    (before after : list string) (test value : string) :
  string_find "=" test = None ->
  (forall it other, In it before -> it <> (test ++ "=" ++ other)%string) ->
  GetSwitchArgument (before ++ (test ++ "=" ++ value)%string :: after) test
  = value.
Proof.
  intros Htest Hbefore. rewrite GetSwitchArgument_nonempty.
  induction before as [| it before IH]; simpl.
  - destruct (string_find_app "=" test value Htest) as (Hfind & Hkey & Hval).
    simpl in Hfind, Hkey, Hval. rewrite Hfind, Hkey, String.eqb_refl.
    exact Hval.
  - assert (Hrest : forall it' other,
               In it' before -> it' <> (test ++ "=" ++ other)%string).
    { intros it' other Hin. apply Hbefore. now right. }
    destruct (string_find "=" it) as [found |] eqn:Hfind; [| now apply IH].
    destruct (String.eqb_spec (substring 0 found it) test) as [Hkey | Hne];
      [| now apply IH].
    exfalso. destruct (string_find_split "=" it found Hfind) as [Hsplit _].
    apply (Hbefore it (substr_from (found + 1) it)); [now left |].
    rewrite Hkey in Hsplit. exact Hsplit.
Qed.

(** X10: the first assignment wins and its value comes back whole.  When
    [test] has no "=" in it and no element before [test=value] has the form
    [test=...], [GetSwitchArgument] returns [value], whatever follows and
    whatever [value] is: it may be empty or contain further "=". *)
Theorem GetSwitchArgument_first_assignment
    (before after : list string) (test value : string) :
  string_find "=" test = None ->
  (forall it other, In it before -> it <> (test ++ "=" ++ other)%string) ->
  GetSwitchArgument (before ++ (test ++ "=" ++ value)%string :: after) test
  = value.
Proof. apply GetSwitchArgument_first. Qed.

Lemma GetSwitchArgument_first_assignment_witness :
  GetSwitchArgument
    (["fast-update"; "nothing=here"] ++
     ("url-source" ++ "=" ++ "https://example.org/u?a=b")%string ::
     ["disable-pings"; "url-source=ignored"])%list
    "url-source"
  = "https://example.org/u?a=b".
Proof.
  apply (GetSwitchArgument_first_assignment
           ["fast-update"; "nothing=here"]
           ["disable-pings"; "url-source=ignored"]
           "url-source" "https://example.org/u?a=b").
  - reflexivity.
  - intros it other [<- | [<- | []]]; simpl; discriminate.
Defined.

(** X11: a non-empty result of [GetSwitchArgument] is the right-hand side of
    an element of [vec] that reads [test=result], and then [test] has no "="
    in it. *)
Theorem GetSwitchArgument_sound (vec : list string) (test result : string) :
  GetSwitchArgument vec test = result ->
  result <> ""%string ->
  In (test ++ "=" ++ result)%string vec /\ string_find "=" test = None.
Proof.
  rewrite GetSwitchArgument_nonempty. intros Hget Hnonempty.
  induction vec as [| it vec IH]; simpl in Hget; [congruence |].
  destruct (string_find "=" it) as [found |] eqn:Hfind.
  - destruct (String.eqb_spec (substring 0 found it) test) as [Hkey | Hne].
    + destruct (string_find_split "=" it found Hfind) as [Hsplit Hnone].
      rewrite Hkey in Hsplit, Hnone. rewrite Hget in Hsplit.
      split; [left; now rewrite Hsplit | exact Hnone].
    + destruct (IH Hget) as [Hin Hnone]. split; [now right | exact Hnone].
  - destruct (IH Hget) as [Hin Hnone]. split; [now right | exact Hnone].
Qed.

Lemma GetSwitchArgument_sound_witness :
  In ("url-source" ++ "=" ++ "https://example.org/u?a=b")%string
     sample_switch_values /\
  string_find "=" "url-source" = None.
Proof.
  apply (GetSwitchArgument_sound sample_switch_values "url-source"
           "https://example.org/u?a=b").
  - reflexivity.
  - discriminate.
Defined.

(** X12: a [test] that itself contains "=" never matches: the key of an
    element ends before its first "=", so [GetSwitchArgument] returns the
    empty string for every vector, even one that holds [test=value]. *)
Theorem GetSwitchArgument_key_with_equals
    (vec : list string) (test : string) found :
  string_find "=" test = Some found ->
  GetSwitchArgument vec test = ""%string.
Proof.
  intros Htest. rewrite GetSwitchArgument_nonempty.
  induction vec as [| it vec IH]; simpl; [reflexivity |].
  destruct (string_find "=" it) as [n |] eqn:Hfind; [| exact IH].
  destruct (String.eqb_spec (substring 0 n it) test) as [Hkey | Hne];
    [| exact IH].
  destruct (string_find_split "=" it n Hfind) as [_ Hnone].
  rewrite Hkey in Hnone. congruence.
Qed.

Lemma GetSwitchArgument_key_with_equals_witness :
  GetSwitchArgument ["a=b=c"; "a=b"] "a=b" = ""%string.
Proof.
  exact (GetSwitchArgument_key_with_equals ["a=b=c"; "a=b"] "a=b" 1 eq_refl).
Defined.

(** * The configurator built from the switches *)

Lemma XwalkConfigurator_new_Some build parse getter switch_values c :
  XwalkConfigurator_new build parse getter switch_values = Some c ->
  fast_update_ c = HasSwitchValue switch_values kSwitchFastUpdate /\
  pings_enabled_ c = negb (HasSwitchValue switch_values kSwitchDisablePings) /\
  deltas_enabled_ c
  = negb (HasSwitchValue switch_values kSwitchDisableDeltaUpdates) /\
  background_downloads_enabled_ c
  = (OS_WIN build &&
     negb (HasSwitchValue switch_values kSwitchDisableBackgroundDownloads)) /\
  extra_info_ c
  = (if HasSwitchValue switch_values kSwitchRequestParam
     then kTestRequest else ""%string) /\
  fallback_to_alt_source_url_enabled_ c = CanUseAltUrlSource build /\
  url_source_override_ c
  = (if string_empty (GetSwitchArgument switch_values kSwitchUrlSource)
     then GURL_empty
     else parse (GetSwitchArgument switch_values kSwitchUrlSource)).
Proof.
  unfold XwalkConfigurator_new.
  destruct (negb (string_empty (GetSwitchArgument switch_values
                                  kSwitchUrlSource))
            && DCHECK_IS_ON build && _); [discriminate |].
  intros [= <-]. simpl.
  destruct (OS_WIN build),
    (string_empty (GetSwitchArgument switch_values kSwitchUrlSource));
    repeat split.
Qed.

Lemma not_true_iff_In (vec : list string) test :
  negb (HasSwitchValue vec test) = false <-> In test vec.
Proof. rewrite negb_false_iff. apply HasSwitchValue_spec. Qed.

Lemma HasSwitchValue_false (vec : list string) test :
  HasSwitchValue vec test = false <-> ~ In test vec.
Proof.
  rewrite <- HasSwitchValue_spec. now destruct (HasSwitchValue vec test).
Qed.

(** X13: in a configurator that the constructor returns, each flag is
    decided by one switch value: fast update is on exactly when "fast-update"
    is given, deltas are off exactly when "disable-delta-updates" is given,
    the extra request parameter is [testrequest="1"] when "test-request" is
    given and empty otherwise, and the background downloader is used exactly
    on a Windows build without "disable-background-downloads". *)
Theorem switches_decide_flags build parse getter switch_values c :
  XwalkConfigurator_new build parse getter switch_values = Some c ->
  (fast_update_ c = true <-> In kSwitchFastUpdate switch_values) /\
  (DeltasEnabled c = false <-> In kSwitchDisableDeltaUpdates switch_values) /\
  (In kSwitchRequestParam switch_values ->
   ExtraRequestParams c = kTestRequest) /\
  (~ In kSwitchRequestParam switch_values ->
   ExtraRequestParams c = ""%string) /\
  (UseBackgroundDownloader c = true <->
   OS_WIN build = true /\
   ~ In kSwitchDisableBackgroundDownloads switch_values).
Proof.
  intros Hnew.
  destruct (XwalkConfigurator_new_Some _ _ _ _ _ Hnew)
    as (Hfast & _ & Hdeltas & Hback & Hextra & _ & _).
  unfold DeltasEnabled, ExtraRequestParams, UseBackgroundDownloader.
  rewrite Hfast, Hdeltas, Hback, Hextra.
  split; [apply HasSwitchValue_spec |].
  split; [apply not_true_iff_In |].
  split; [| split].
  - intros Hin. apply HasSwitchValue_spec in Hin. now rewrite Hin.
  - intros Hnotin. apply HasSwitchValue_false in Hnotin. now rewrite Hnotin.
  - rewrite andb_true_iff, negb_true_iff, HasSwitchValue_false. reflexivity.
Qed.

Lemma switches_decide_flags_witness :
  exists c,
    XwalkConfigurator_new release_linux sample_parse 0 sample_switch_values
    = Some c /\
    (fast_update_ c = true <-> In kSwitchFastUpdate sample_switch_values) /\
    (DeltasEnabled c = false <->
     In kSwitchDisableDeltaUpdates sample_switch_values) /\
    (In kSwitchRequestParam sample_switch_values ->
     ExtraRequestParams c = kTestRequest) /\
    (~ In kSwitchRequestParam sample_switch_values ->
     ExtraRequestParams c = ""%string) /\
    (UseBackgroundDownloader c = true <->
     OS_WIN release_linux = true /\
     ~ In kSwitchDisableBackgroundDownloads sample_switch_values).
Proof.
  eexists. split; [reflexivity |].
  exact (switches_decide_flags release_linux sample_parse 0%N
           sample_switch_values _ eq_refl).
Defined.

(** X14: a configurator that the constructor returns always has an update
    URL: one or two of them, exactly one on a build that is not for Windows;
    its ping URLs are empty exactly when "disable-pings" is given, and
    otherwise they are the update URLs. *)
Theorem ping_urls_follow_update_urls build parse getter switch_values c :
  XwalkConfigurator_new build parse getter switch_values = Some c ->
  (1 <= length (UpdateUrl parse c) <= 2) /\
  (OS_WIN build = false -> length (UpdateUrl parse c) = 1) /\
  (PingUrl parse c = [] <-> In kSwitchDisablePings switch_values) /\
  (~ In kSwitchDisablePings switch_values ->
   PingUrl parse c = UpdateUrl parse c).
Proof.
  intros Hnew.
  destruct (XwalkConfigurator_new_Some _ _ _ _ _ Hnew)
    as (_ & Hpings & _ & _ & _ & Hfallback & _).
  assert (Hlen : 1 <= length (UpdateUrl parse c) <= 2).
  { unfold UpdateUrl. destruct (is_valid (url_source_override_ c)); simpl;
      [lia |]. destruct (fallback_to_alt_source_url_enabled_ c); simpl; lia. }
  split; [exact Hlen | split; [| split]].
  - intros Hwin. unfold UpdateUrl. rewrite Hfallback.
    unfold CanUseAltUrlSource. rewrite Hwin.
    now destruct (is_valid (url_source_override_ c)).
  - unfold PingUrl. rewrite Hpings.
    destruct (HasSwitchValue switch_values kSwitchDisablePings) eqn:Hhas;
      simpl.
    + apply HasSwitchValue_spec in Hhas. tauto.
    + apply HasSwitchValue_false in Hhas. split; [| tauto].
      intros Hnil. rewrite Hnil in Hlen. simpl in Hlen. lia.
  - intros Hnotin. apply HasSwitchValue_false in Hnotin.
    unfold PingUrl. now rewrite Hpings, Hnotin.
Qed.

Lemma ping_urls_follow_update_urls_witness :
  exists c,
    XwalkConfigurator_new release_linux sample_parse 0 ["test-request"]
    = Some c /\
    (1 <= length (UpdateUrl sample_parse c) <= 2) /\
    (OS_WIN release_linux = false ->
     length (UpdateUrl sample_parse c) = 1) /\
    (PingUrl sample_parse c = [] <->
     In kSwitchDisablePings ["test-request"]) /\
    (~ In kSwitchDisablePings ["test-request"] ->
     PingUrl sample_parse c = UpdateUrl sample_parse c).
Proof.
  eexists. split; [reflexivity |].
  exact (ping_urls_follow_update_urls release_linux sample_parse 0%N
           ["test-request"] _ eq_refl).
Defined.



(** X16: with fast update on, no delay is longer than with it off, and
    [StepDelay] is one second either way; every delay is at least one second
    and at most six hours, so each fits an [int]. *)
Theorem fast_update_shortens_delays (fast normal : XwalkConfigurator) :
  fast_update_ fast = true ->
  fast_update_ normal = false ->
  (InitialDelay fast <= InitialDelay normal /\
   NextCheckDelay fast <= NextCheckDelay normal /\
   StepDelayMedium fast <= StepDelayMedium normal /\
   StepDelay fast = 1 /\ StepDelay normal = 1 /\
   MinimumReCheckWait fast <= MinimumReCheckWait normal /\
   OnDemandDelay fast <= OnDemandDelay normal /\
   UpdateDelay fast <= UpdateDelay normal)%Z /\
  Forall (fun delay => 1 <= delay <= 6 * kDelayOneHour /\ delay < 2 ^ 31)%Z
    (flat_map (fun c => [InitialDelay c; NextCheckDelay c; StepDelayMedium c;
                         StepDelay c; MinimumReCheckWait c; OnDemandDelay c;
                         UpdateDelay c]) [fast; normal]).
Proof.
  intros Hfast Hnormal.
  unfold InitialDelay, NextCheckDelay, StepDelayMedium, StepDelay,
    MinimumReCheckWait, OnDemandDelay, UpdateDelay.
  simpl flat_map. rewrite Hfast, Hnormal.
  unfold kDelayOneHour, kDelayOneMinute.
  split; [lia |]. repeat constructor; lia.
Qed.

Lemma fast_update_shortens_delays_witness :
  (InitialDelay fast_configurator <= InitialDelay default_configurator /\
   NextCheckDelay fast_configurator <= NextCheckDelay default_configurator /\
   StepDelayMedium fast_configurator
   <= StepDelayMedium default_configurator /\
   StepDelay fast_configurator = 1 /\ StepDelay default_configurator = 1 /\
   MinimumReCheckWait fast_configurator
   <= MinimumReCheckWait default_configurator /\
   OnDemandDelay fast_configurator <= OnDemandDelay default_configurator /\
   UpdateDelay fast_configurator <= UpdateDelay default_configurator)%Z /\
  Forall (fun delay => 1 <= delay <= 6 * kDelayOneHour /\ delay < 2 ^ 31)%Z
    (flat_map (fun c => [InitialDelay c; NextCheckDelay c; StepDelayMedium c;
                         StepDelay c; MinimumReCheckWait c; OnDemandDelay c;
                         UpdateDelay c])
       [fast_configurator; default_configurator]).
Proof.
  exact (fast_update_shortens_delays fast_configurator default_configurator
           eq_refl eq_refl).
Defined.

(** * The plugin query of the render message filter *)

Import render_message_filter.

Section PluginQuery.

Variable IsPluginEnabled : WebPluginInfo -> bool.
Variable mime : string.

Lemma scan_mime_types_spec plugin (remaining : list WebPluginMimeType) :
  match scan_mime_types IsPluginEnabled plugin mime remaining with
  | ReturnsAvailable found =>
      In found remaining /\ mime_type found = mime /\
      IsPluginEnabled plugin = true
  | BreaksDisabled =>
      IsPluginEnabled plugin = false /\
      exists entry, In entry remaining /\ mime_type entry = mime
  | RunsOut => forall entry, In entry remaining -> mime_type entry <> mime
  end.
Proof.
  induction remaining as [| entry rest IH]; simpl; [tauto |].
  destruct (String.eqb_spec (mime_type entry) mime) as [Heq | Hne].
  - destruct (IsPluginEnabled plugin); simpl; eauto 6.
  - destruct (scan_mime_types IsPluginEnabled plugin mime rest).
    + destruct IH as (Hin & Hmime & Henabled). auto.
    + destruct IH as (Hdisabled & entry' & Hin & Hmime). eauto 6.
    + intros entry' [<- | Hin]; auto.
Qed.

Lemma scan_plugins_spec (plugins : list WebPluginInfo) :
  forall flag,
    match scan_plugins IsPluginEnabled mime flag plugins with
    | (Some found, _) =>
        exists plugin,
          In plugin plugins /\ IsPluginEnabled plugin = true /\
          In found (mime_types plugin) /\ mime_type found = mime
    | (None, is_plugin_disabled) =>
        (forall plugin,
            In plugin plugins -> offers mime plugin ->
            IsPluginEnabled plugin = false) /\
        (is_plugin_disabled = true <->
         flag = true \/
         exists plugin, In plugin plugins /\ offers mime plugin)
    end.
Proof.
  induction plugins as [| plugin rest IH]; intros flag; simpl.
  - split; [contradiction |]. split; [auto |].
    intros [H | (plugin & [] & _)]; exact H.
  - pose proof (scan_mime_types_spec plugin (mime_types plugin)) as Hinner.
    destruct (scan_mime_types IsPluginEnabled plugin mime (mime_types plugin))
      as [found | |].
    + destruct Hinner as (Hin & Hmime & Henabled). exists plugin. auto.
    + destruct Hinner as (Hdisabled & entry & Hin & Hmime).
      specialize (IH true).
      destruct (scan_plugins IsPluginEnabled mime true rest)
        as [[found |] disabled].
      * destruct IH as (p & Hp & Hrest). exists p. auto.
      * destruct IH as [Hall Hflag]. split.
        -- intros p [<- | Hp] Hoffers; auto.
        -- split.
           ++ intros _. right. exists plugin. split; [now left |].
              now exists entry.
           ++ intros _. apply Hflag. now left.
    + specialize (IH flag).
      destruct (scan_plugins IsPluginEnabled mime flag rest)
        as [[found |] disabled].
      * destruct IH as (p & Hp & Hrest). exists p. auto.
      * destruct IH as [Hall Hflag]. split.
        -- intros p [<- | Hp] Hoffers; auto.
           destruct Hoffers as (entry & Hin & Hmime).
           now apply Hinner in Hin.
        -- rewrite Hflag. split.
           ++ intros [H | (p & Hp & Hoffers)]; [now left |].
              right. exists p. auto.
           ++ intros [H | (p & [<- | Hp] & Hoffers)]; [now left | |].
              ** destruct Hoffers as (entry & Hin & Hmime).
                 now apply Hinner in Hin.
              ** right. exists p. auto.
Qed.

End PluginQuery.

(** X17: the plugin query answers "available" exactly when some internal
    plugin that lists the MIME type is enabled, wherever it stands in the
    list: a disabled plugin listing the type does not hide a later enabled
    one.  The parameter names and values it then returns are those of an
    entry for that MIME type of an enabled plugin; when the answer is "not
    available" the caller's parameter vectors are left as they were. *)
Theorem plugin_available_iff_enabled_plugin_offers
    IsPluginEnabled widevine kWidevine plugins mime before :
  let answer :=
    fst (OnIsInternalPluginAvailableForMimeType IsPluginEnabled widevine
           kWidevine plugins mime before) in
  (is_available answer = true <->
   exists plugin,
     In plugin plugins /\ IsPluginEnabled plugin = true /\
     offers mime plugin) /\
  (is_available answer = true ->
   exists plugin entry,
     In plugin plugins /\ IsPluginEnabled plugin = true /\
     In entry (mime_types plugin) /\ mime_type entry = mime /\
     out_param_names answer = additional_param_names entry /\
     out_param_values answer = additional_param_values entry) /\
  (is_available answer = false ->
   out_param_names answer = out_param_names before /\
   out_param_values answer = out_param_values before).
Proof.
  unfold OnIsInternalPluginAvailableForMimeType.
  pose proof (scan_plugins_spec IsPluginEnabled mime plugins false) as Hscan.
  destruct (scan_plugins IsPluginEnabled mime false plugins)
    as [[found |] disabled]; simpl.
  - destruct Hscan as (plugin & Hin & Henabled & Hentry & Hmime).
    split; [| split].
    + split; [| reflexivity]. intros _. exists plugin.
      repeat split; trivial. now exists found.
    + intros _. exists plugin, found. auto 7.
    + discriminate.
  - destruct Hscan as [Hall _]. split; [| split].
    + split; [discriminate |].
      intros (plugin & Hin & Henabled & Hoffers).
      rewrite (Hall plugin Hin Hoffers) in Henabled. discriminate.
    + discriminate.
    + auto.
Qed.

(** X18: the status the plugin query reports is [PLUGIN_AVAILABLE] when an
    enabled plugin lists the MIME type, [PLUGIN_DISABLED] when plugins list
    it but none of them is enabled, and [PLUGIN_NOT_REGISTERED] when no
    plugin lists it; the report is a single histogram sample, recorded only
    in a build with the Widevine CDM and only for the Widevine MIME type. *)
Theorem plugin_status_report
    IsPluginEnabled widevine kWidevine plugins mime before :
  exists status,
    snd (OnIsInternalPluginAvailableForMimeType IsPluginEnabled widevine
           kWidevine plugins mime before)
    = (if widevine && String.eqb mime kWidevine
       then [Plugin_AvailabilityStatus_WidevineCdm status] else []) /\
    (status = PLUGIN_AVAILABLE <->
     exists plugin,
       In plugin plugins /\ IsPluginEnabled plugin = true /\
       offers mime plugin) /\
    (status = PLUGIN_DISABLED <->
     (exists plugin, In plugin plugins /\ offers mime plugin) /\
     forall plugin,
       In plugin plugins -> offers mime plugin ->
       IsPluginEnabled plugin = false) /\
    (status = PLUGIN_NOT_REGISTERED <->
     forall plugin, In plugin plugins -> ~ offers mime plugin).
Proof.
  unfold OnIsInternalPluginAvailableForMimeType.
  pose proof (scan_plugins_spec IsPluginEnabled mime plugins false) as Hscan.
  assert (Hreport : forall status,
             SendPluginAvailabilityUMA widevine kWidevine mime status
             = if widevine && String.eqb mime kWidevine
               then [Plugin_AvailabilityStatus_WidevineCdm status] else []).
  { intros status. unfold SendPluginAvailabilityUMA.
    now destruct widevine, (String.eqb mime kWidevine). }
  destruct (scan_plugins IsPluginEnabled mime false plugins)
    as [[found |] disabled]; simpl.
  - destruct Hscan as (plugin & Hin & Henabled & Hentry & Hmime).
    assert (Hoffers : offers mime plugin) by now exists found.
    exists PLUGIN_AVAILABLE. split; [apply Hreport |].
    split; [| split].
    + split; [| reflexivity]. intros _. now exists plugin.
    + split; [discriminate |]. intros [_ Hall].
      rewrite (Hall plugin Hin Hoffers) in Henabled. discriminate.
    + split; [discriminate |]. intros Hnone.
      now apply (Hnone plugin Hin) in Hoffers.
  - destruct Hscan as [Hall Hflag].
    assert (Hno_enabled :
              ~ exists plugin,
                  In plugin plugins /\ IsPluginEnabled plugin = true /\
                  offers mime plugin).
    { intros (plugin & Hin & Henabled & Hoffers).
      rewrite (Hall plugin Hin Hoffers) in Henabled. discriminate. }
    destruct disabled.
    + assert (Hsome : exists plugin, In plugin plugins /\ offers mime plugin).
      { destruct (proj1 Hflag eq_refl) as [H | H]; [discriminate | exact H]. }
      exists PLUGIN_DISABLED. split; [apply Hreport |].
      split; [| split].
      * split; [discriminate | intros H; now apply Hno_enabled in H].
      * split; [auto | reflexivity].
      * split; [discriminate |]. intros Hnone.
        destruct Hsome as (plugin & Hin & Hoffers).
        now apply (Hnone plugin Hin) in Hoffers.
    + assert (Hnone : forall plugin, In plugin plugins -> ~ offers mime plugin).
      { intros plugin Hin Hoffers.
        assert (H : false = true) by (apply Hflag; right; now exists plugin).
        discriminate H. }
      exists PLUGIN_NOT_REGISTERED. split; [apply Hreport |].
      split; [| split].
      * split; [discriminate | intros H; now apply Hno_enabled in H].
      * split; [discriminate |]. intros [(plugin & Hin & Hoffers) _].
        now apply (Hnone plugin Hin) in Hoffers.
      * split; [auto | reflexivity].
Qed.

Lemma plugin_available_iff_enabled_plugin_offers_witness :
  is_available
    (fst (OnIsInternalPluginAvailableForMimeType sample_enabled true
            "application/x-ppapi-widevine-cdm"
            [old_cdm_plugin; new_cdm_plugin]
            "application/x-ppapi-widevine-cdm" empty_answer)) = true /\
  exists plugin entry,
    In plugin [old_cdm_plugin; new_cdm_plugin] /\
    sample_enabled plugin = true /\
    In entry (mime_types plugin) /\
    mime_type entry = "application/x-ppapi-widevine-cdm" /\
    out_param_names
      (fst (OnIsInternalPluginAvailableForMimeType sample_enabled true
              "application/x-ppapi-widevine-cdm"
              [old_cdm_plugin; new_cdm_plugin]
              "application/x-ppapi-widevine-cdm" empty_answer))
    = additional_param_names entry /\
    out_param_values
      (fst (OnIsInternalPluginAvailableForMimeType sample_enabled true
              "application/x-ppapi-widevine-cdm"
              [old_cdm_plugin; new_cdm_plugin]
              "application/x-ppapi-widevine-cdm" empty_answer))
    = additional_param_values entry.
Proof.
  pose proof (plugin_available_iff_enabled_plugin_offers sample_enabled true
                "application/x-ppapi-widevine-cdm"
                [old_cdm_plugin; new_cdm_plugin]
                "application/x-ppapi-widevine-cdm" empty_answer) as H.
  cbv zeta in H. destruct H as (Hiff & Hparams & _).
  assert (Havailable :
            is_available
              (fst (OnIsInternalPluginAvailableForMimeType sample_enabled true
                      "application/x-ppapi-widevine-cdm"
                      [old_cdm_plugin; new_cdm_plugin]
                      "application/x-ppapi-widevine-cdm" empty_answer))
            = true).
  { apply Hiff. exists new_cdm_plugin. split; [simpl; auto |].
    split; [reflexivity |]. exists cdm_entry. simpl. auto. }
  split; [exact Havailable | exact (Hparams Havailable)].
Defined.
